(** * validate_workflow_config.py: override resolution, template
      substitution and disabled-subtree pruning

    A shallow embedding of [src/validate_workflow_config.py].  JSON values
    are a tagged tree; Python dicts are association lists in insertion
    order whose keys are unique ([wf_value]); Python exceptions are values
    of [exn] carried by the [result] monad.  The interpreter services the
    script calls ([int], [float], [str] on floats, [json.loads],
    [ast.literal_eval], [ast.parse], [eval]) are the fields of the class
    [PyRuntime]; what the script itself computes is defined here. *)

From Stdlib Require Import String Ascii List ZArith Bool Lia.
From Stdlib Require Import DecimalString.
From Stdlib Require Import Floats.PrimFloat.
Import ListNotations.
Local Open Scope list_scope.
Local Open Scope string_scope.

(* ================================================================= *)
(** ** Python string methods used by the script *)

(** [s.startswith(p)] *)
Fixpoint startswith (p s : string) : bool :=
  match p, s with
  | EmptyString, _ => true
  | String a p', String b s' => Ascii.eqb a b && startswith p' s'
  | String _ _, EmptyString => false
  end.

(** [s.endswith(suffix)] *)
Fixpoint endswith (suffix s : string) : bool :=
  String.eqb suffix s ||
  match s with
  | EmptyString => false
  | String _ t => endswith suffix t
  end.

(** [sub in s] *)
Fixpoint contains (sub s : string) : bool :=
  startswith sub s ||
  match s with
  | EmptyString => false
  | String _ t => contains sub t
  end.

Definition lower_ascii (c : ascii) : ascii :=
  let n := nat_of_ascii c in
  if (65 <=? n)%nat && (n <=? 90)%nat then ascii_of_nat (n + 32) else c.

(** [s.lower()] on the ASCII letters *)
Fixpoint lower (s : string) : string :=
  match s with
  | EmptyString => EmptyString
  | String a t => String (lower_ascii a) (lower t)
  end.

Fixpoint lstrip (c : ascii) (s : string) : string :=
  match s with
  | EmptyString => EmptyString
  | String a t => if Ascii.eqb a c then lstrip c t else s
  end.

Fixpoint rstrip (c : ascii) (s : string) : string :=
  match s with
  | EmptyString => EmptyString
  | String a t =>
      match rstrip c t with
      | EmptyString => if Ascii.eqb a c then EmptyString else String a EmptyString
      | r => String a r
      end
  end.

(** [s.strip(c)] for a one-character set *)
Definition strip (c : ascii) (s : string) : string := rstrip c (lstrip c s).

(** [s.split(sep)] for a one-character separator: never empty *)
Fixpoint split (sep : ascii) (s : string) : list string :=
  match s with
  | EmptyString => [EmptyString]
  | String a t =>
      if Ascii.eqb a sep then EmptyString :: split sep t
      else match split sep t with
           | [] => [String a EmptyString]
           | h :: r => String a h :: r
           end
  end.

(** [s.split(sep, 1)] when the separator occurs: the text before the first
    separator and the text after it; [None] when the list has one element *)
Fixpoint split_once (sep : ascii) (s : string) : option (string * string) :=
  match s with
  | EmptyString => None
  | String a t =>
      if Ascii.eqb a sep then Some (EmptyString, t)
      else match split_once sep t with
           | Some (k, v) => Some (String a k, v)
           | None => None
           end
  end.

Fixpoint drop_last (s : string) : string :=
  match s with
  | EmptyString => EmptyString
  | String a t =>
      match t with
      | EmptyString => EmptyString
      | String _ _ => String a (drop_last t)
      end
  end.

(** [s[1:-1]] *)
Definition slice_1_m1 (s : string) : string :=
  match s with
  | EmptyString => EmptyString
  | String _ t => drop_last t
  end.

(** [s.replace(old, new)] for non-empty [old]: occurrences are replaced
    left to right without overlap; [skip] counts the characters of the
    occurrence just replaced that are still to be passed over *)
Fixpoint replace_from (skip : nat) (old new s : string) : string :=
  match s with
  | EmptyString => EmptyString
  | String a t =>
      match skip with
      | S k => replace_from k old new t
      | O =>
          if startswith old s
          then new ++ replace_from (String.length old - 1) old new t
          else String a (replace_from 0 old new t)
      end
  end.

Definition str_replace (old new s : string) : string := replace_from 0 old new s.

(** [str(n)] for an [int] *)
Definition str_int (n : Z) : string := NilZero.string_of_int (Z.to_int n).

(* ================================================================= *)
(** ** JSON values as Python holds them *)

#[local] Unset Elimination Schemes.
Inductive Value : Type :=
| VNull
| VBool (b : bool)
| VInt (n : Z)
| VFloat (f : float)
| VString (s : string)
| VObject (members : list (string * Value))
| VArray (items : list Value).
#[local] Set Elimination Schemes.

Definition dict : Type := list (string * Value).

(** [d.get(k)] *)
Fixpoint dict_get (k : string) (d : dict) : option Value :=
  match d with
  | [] => None
  | (k', v) :: rest => if String.eqb k k' then Some v else dict_get k rest
  end.

(** [k in d] *)
Definition dict_has (k : string) (d : dict) : bool :=
  match dict_get k d with Some _ => true | None => false end.

(** [d[k] = v]: an existing key keeps its place, a new one goes last *)
Fixpoint dict_set (k : string) (v : Value) (d : dict) : dict :=
  match d with
  | [] => [(k, v)]
  | (k', v') :: rest =>
      if String.eqb k k' then (k', v) :: rest else (k', v') :: dict_set k v rest
  end.

(** [d.pop(k, None)], the popped value dropped *)
Fixpoint dict_pop (k : string) (d : dict) : dict :=
  match d with
  | [] => []
  | (k', v) :: rest =>
      if String.eqb k k' then rest else (k', v) :: dict_pop k rest
  end.

Fixpoint unique_keys (d : dict) : bool :=
  match d with
  | [] => true
  | (k, _) :: rest => negb (dict_has k rest) && unique_keys rest
  end.

(** The invariant of a tree of Python dicts: no object repeats a key *)
Fixpoint wf_value (v : Value) : bool :=
  match v with
  | VObject members =>
      unique_keys members &&
      (fix all (ms : list (string * Value)) : bool :=
         match ms with
         | [] => true
         | (_, x) :: rest => wf_value x && all rest
         end) members
  | VArray items =>
      (fix all (xs : list Value) : bool :=
         match xs with
         | [] => true
         | x :: rest => wf_value x && all rest
         end) items
  | _ => true
  end.

Definition is_none (v : Value) : bool :=
  match v with VNull => true | _ => false end.

Definition is_container (v : Value) : bool :=
  match v with VObject _ | VArray _ => true | _ => false end.

(** [v == True]: [True], [1] and [1.0] are equal to [True] *)
Definition eq_True (v : Value) : bool :=
  match v with
  | VBool b => b
  | VInt n => Z.eqb n 1
  | VFloat f => PrimFloat.eqb f 1%float
  | _ => false
  end.

(** Python truth value, as [not x] and [if x:] use it *)
Definition truthy (v : Value) : bool :=
  match v with
  | VNull => false
  | VBool b => b
  | VInt n => negb (Z.eqb n 0)
  | VFloat f => negb (PrimFloat.eqb f 0%float)
  | VString s => negb (String.eqb s EmptyString)
  | VObject members => match members with [] => false | _ => true end
  | VArray items => match items with [] => false | _ => true end
  end.

(* ================================================================= *)
(** ** remove_disabled_elements (lines 13-26) *)

(** [None] is [VNull]: the function returns it both for a JSON null and
    for "removed". *)
Fixpoint remove_disabled_elements (data : Value) : Value :=
  match data with
  | VObject members =>
      if match dict_get "disabled" members with
         | Some v => eq_True v
         | None => false
         end
      then VNull
      else
        let cleaned_dict :=
          (fix comprehension (ms : list (string * Value)) : list (string * Value) :=
             match ms with
             | [] => []
             | (key, value) :: rest =>
                 if is_none (remove_disabled_elements value)
                 then comprehension rest
                 else (key, remove_disabled_elements value) :: comprehension rest
             end) members in
        match cleaned_dict with
        | [] => VNull
        | _ => VObject cleaned_dict
        end
  | VArray items =>
      let cleaned_list :=
        (fix comprehension (xs : list Value) : list Value :=
           match xs with
           | [] => []
           | item :: rest =>
               if is_none (remove_disabled_elements item)
               then comprehension rest
               else remove_disabled_elements item :: comprehension rest
           end) items in
      match cleaned_list with
      | [] => VNull
      | _ => VArray cleaned_list
      end
  | _ => data
  end.

(** The two comprehensions of lines 18 and 22 and the test of line 15,
    under names *)
Definition prune_members : list (string * Value) -> list (string * Value) :=
  fix comprehension (ms : list (string * Value)) : list (string * Value) :=
    match ms with
    | [] => []
    | (key, value) :: rest =>
        if is_none (remove_disabled_elements value)
        then comprehension rest
        else (key, remove_disabled_elements value) :: comprehension rest
    end.

Definition prune_items : list Value -> list Value :=
  fix comprehension (xs : list Value) : list Value :=
    match xs with
    | [] => []
    | item :: rest =>
        if is_none (remove_disabled_elements item)
        then comprehension rest
        else remove_disabled_elements item :: comprehension rest
    end.

Definition disabled_flag (members : dict) : bool :=
  match dict_get "disabled" members with
  | Some v => eq_True v
  | None => false
  end.

(* ================================================================= *)
(** ** Exceptions and the result of a computation that may raise *)

Inductive exn : Type :=
| ValueError (msg : string)
| JSONDecodeError (msg : string)      (* a subclass of ValueError *)
| TypeError (msg : string)
| AttributeError (msg : string)
| SyntaxError (msg : string)
| NameError (msg : string)
| ValidationError (msg : string)
| SystemExit (msg : string).

(** [isinstance(e, ValueError)], what [except ValueError] catches *)
Definition is_ValueError (e : exn) : bool :=
  match e with
  | ValueError _ | JSONDecodeError _ => true
  | _ => false
  end.

Inductive result (A : Type) : Type :=
| Ok (a : A)
| Raise (e : exn).
Arguments Ok {A} a.
Arguments Raise {A} e.

Definition bind {A B : Type} (c : result A) (k : A -> result B) : result B :=
  match c with
  | Ok a => k a
  | Raise e => Raise e
  end.

Notation "x <- c ;; k" := (bind c (fun x => k))
  (at level 61, c at next level, right associativity).

(* ================================================================= *)
(** ** Syntax trees as [ast.walk] sees them *)

(** The payload of a node that is not itself a node: an identifier or the
    value of a constant. *)
Inductive constant : Type :=
| CNone
| CBool (b : bool)
| CInt (n : Z)
| CFloat (f : float)
| CStr (s : string)
| CRepr (text : string).               (* bytes, complex, Ellipsis *)

(** A node of Python's [ast]: its class name ([type(node).__name__]), its
    fields that are not nodes, and its child nodes in the order
    [ast.iter_child_nodes] yields them. *)
#[local] Unset Elimination Schemes.
Inductive ast : Type :=
| Node (cls : string) (attrs : list (string * constant)) (children : list ast).
#[local] Set Elimination Schemes.

Definition cls_of (n : ast) : string := match n with Node c _ _ => c end.
Definition children_of (n : ast) : list ast := match n with Node _ _ cs => cs end.

Fixpoint node_count (n : ast) : nat :=
  match n with
  | Node _ _ cs =>
      S ((fix total (l : list ast) : nat :=
            match l with
            | [] => 0
            | c :: r => node_count c + total r
            end) cs)
  end.

(** [ast.walk]: the queue is served from the left and the children of the
    node served are appended on the right. *)
Fixpoint walk_queue (fuel : nat) (todo : list ast) : list ast :=
  match fuel with
  | O => []
  | S fuel' =>
      match todo with
      | [] => []
      | node :: rest => node :: walk_queue fuel' (rest ++ children_of node)%list
      end
  end.

Definition ast_walk (tree : ast) : list ast := walk_queue (node_count tree) [tree].

(** The nodes of a tree, here in depth-first order: the notion of "a node
    of the tree" that does not depend on how the tree is walked. *)
Fixpoint nodes (n : ast) : list ast :=
  match n with
  | Node _ _ cs =>
      n :: (fix all (l : list ast) : list ast :=
              match l with
              | [] => []
              | c :: r => (nodes c ++ all r)%list
              end) cs
  end.

(** [allowed_types] (line 128) by class name *)
Definition allowed_types : list string :=
  ["Expression"; "IfExp"; "Compare"; "BoolOp"; "Name"; "Load"; "Constant";
   "Eq"; "NotEq"; "Lt"; "LtE"; "Gt"; "GtE"].

Definition mem_string (s : string) (l : list string) : bool :=
  existsb (String.eqb s) l.

(** [isinstance(node, allowed_types)] *)
Definition allowed (n : ast) : bool := mem_string (cls_of n) allowed_types.

(* ================================================================= *)
(** ** What the script takes from the Python runtime *)

Class PyRuntime : Type := {
  (** [int(s)]; [None] is [ValueError] *)
  py_int : string -> option Z;
  (** [float(s)]; [None] is [ValueError] *)
  py_float : string -> option float;
  (** [str(f)] for a float *)
  float_str : float -> string;
  (** [str(v)] for a dict or a list *)
  container_str : Value -> string;
  (** [json.loads(s)] *)
  json_loads : string -> result Value;
  (** [ast.literal_eval(s)] *)
  literal_eval : string -> result Value;
  (** [ast.parse(s, mode='eval')] *)
  ast_parse : string -> result ast;
  (** [eval(compile(tree, '<string>', 'eval'), {'__builtins__': None}, context)] *)
  py_eval : ast -> dict -> result Value
}.

(** [str(v)] *)
Definition py_str `{PyRuntime} (v : Value) : string :=
  match v with
  | VNull => "None"
  | VBool true => "True"
  | VBool false => "False"
  | VInt n => str_int n
  | VFloat f => float_str f
  | VString s => s
  | VObject _ | VArray _ => container_str v
  end.

(* ================================================================= *)
(** ** apply_runtime_overrides (lines 63-305) *)

Definition marker : string := "___TEMP_MARKER___".

(** The double-quote character and a text between two of them *)
Definition dquote : ascii := ascii_of_nat 34.
Definition quoted (s : string) : string := String dquote (s ++ String dquote EmptyString).
Definition newline : string := String (ascii_of_nat 10) EmptyString.

(** A piece of a string as [re.sub] with the pattern of line 274 cuts it:
    a character outside every match, or a match with its group 1. *)
Inductive segment : Type :=
| Chr (c : ascii)
| Placeholder (expression : string).

(** The run of characters other than the closing brace that [[^}]+] takes,
    when a closing brace follows it *)
Fixpoint until_close (s : string) : option string :=
  match s with
  | EmptyString => None
  | String a t =>
      if Ascii.eqb a "}"%char then Some EmptyString
      else match until_close t with
           | Some body => Some (String a body)
           | None => None
           end
  end.

(** Group 1 of a match of the pattern that starts at the head of [s] *)
Definition placeholder_at (s : string) : option string :=
  match s with
  | String a (String b t) =>
      if Ascii.eqb a "$"%char && Ascii.eqb b "{"%char
      then match until_close t with
           | Some (String c body) => Some (String c body)
           | _ => None
           end
      else None
  | _ => None
  end.

(** The matches of the pattern in [s], leftmost first and without overlap;
    [skip] counts the characters of the last match still to be passed *)
Fixpoint scan_from (skip : nat) (s : string) : list segment :=
  match s with
  | EmptyString => []
  | String a t =>
      match skip with
      | S k => scan_from k t
      | O =>
          match placeholder_at s with
          | Some body => Placeholder body :: scan_from (String.length body + 2) t
          | None => Chr a :: scan_from 0 t
          end
      end
  end.

Definition scan (s : string) : list segment := scan_from 0 s.

Definition is_placeholder (g : segment) : bool :=
  match g with
  | Placeholder _ => true
  | Chr _ => false
  end.

(** Whether the pattern matches somewhere in [s] *)
Definition has_placeholder (s : string) : bool := existsb is_placeholder (scan s).

(** [match.group(0)] *)
Definition group0 (full_expression : string) : string :=
  "${" ++ full_expression ++ "}".

(** Line 67: [data.get("defaults", [])] *)
Definition defaults_of (members : dict) : Value :=
  match dict_get "defaults" members with
  | Some d => d
  | None => VArray []
  end.

Section Engine.
Context `{PyRuntime}.

(** Lines 86-108: the value of one [key=value] pair *)
Definition coerce_override (value : string) : result Value :=
  if startswith "{" value && endswith "}" value then json_loads value
  else if startswith "[" value && endswith "]" value then literal_eval value
  else if String.eqb (lower value) "true" then Ok (VBool true)
  else if String.eqb (lower value) "false" then Ok (VBool false)
  else if String.eqb (lower value) "null" || String.eqb (lower value) "none"
  then Ok VNull
  else match py_int value with
       | Some n => Ok (VInt n)
       | None =>
           match py_float value with
           | Some f => Ok (VFloat f)
           | None => Ok (VString (strip dquote value))
           end
       end.

(** Lines 84-108: the loop over the pairs *)
Fixpoint parse_pairs (pairs : list string) (overrides : dict) : result dict :=
  match pairs with
  | [] => Ok overrides
  | pair_text :: rest =>
      match split_once "="%char pair_text with
      | None => Raise (ValueError "not enough values to unpack (expected 2, got 1)")
      | Some (key, value) =>
          v <- coerce_override value ;;
          parse_pairs rest (dict_set key v overrides)
      end
  end.

(** Lines 82-108 *)
Definition parse_overrides (runtime_overrides : string) : result dict :=
  if truthy (VString runtime_overrides)
  then parse_pairs (split ";"%char runtime_overrides) []
  else Ok [].

(** Lines 112-114 for one element of the defaults list *)
Fixpoint merge_default (items : list (string * Value)) (overrides : dict) : dict :=
  match items with
  | [] => overrides
  | (key, value) :: rest =>
      merge_default rest
        (if dict_has key overrides then overrides else dict_set key value overrides)
  end.

Fixpoint merge_defaults_list (defaults : list Value) (overrides : dict) : result dict :=
  match defaults with
  | [] => Ok overrides
  | VObject items :: rest => merge_defaults_list rest (merge_default items overrides)
  | _ :: _ => Raise (AttributeError "object has no attribute 'items'")
  end.

(** Lines 111-114.  Iterating a dict yields its keys and iterating a
    string its characters, neither of which has [items]; the other
    values are not iterable. *)
Definition merge_defaults (defaults : Value) (overrides : dict) : result dict :=
  match defaults with
  | VArray items => merge_defaults_list items overrides
  | VObject [] => Ok overrides
  | VString EmptyString => Ok overrides
  | VObject (_ :: _) => Raise (AttributeError "'str' object has no attribute 'items'")
  | VString (String _ _) => Raise (AttributeError "'str' object has no attribute 'items'")
  | _ => Raise (TypeError "object is not iterable")
  end.

(** Lines 119-147 *)
Definition safe_evaluate_condition (expression : string) (context : dict)
  : result Value :=
  let attempt :=
    tree <- ast_parse expression ;;
    match find (fun node => negb (allowed node)) (ast_walk tree) with
    | Some node => Raise (ValueError ("Unsupported operation: " ++ cls_of node))
    | None => py_eval tree context
    end in
  match attempt with
  | Raise (TypeError msg) =>
      if contains "'NoneType' object is not subscriptable" msg
      then Raise (SystemExit ("RVS conditional error" ++ newline ++ "Error: " ++ expression))
      else Raise (TypeError msg)
  | other => other
  end.

(** Lines 149-174: the bindings that are dicts or lists are left out *)
Definition evaluate_conditional (overrides : dict) (expression : string)
  : result Value :=
  safe_evaluate_condition expression
    (filter (fun kv => negb (is_container (snd kv))) overrides).

(** Lines 244-273: the text that replaces one match *)
Definition replace (overrides : dict) (full_expression : string) : result string :=
  if contains "if" full_expression && contains "else" full_expression then
    match evaluate_conditional overrides full_expression with
    | Ok VNull => Ok (group0 full_expression)
    | Ok result => Ok (py_str result)
    | Raise e => if is_ValueError e then Ok (group0 full_expression) else Raise e
    end
  else
    match dict_get full_expression overrides with
    | Some (VObject _) | Some (VArray _) => Ok (marker ++ full_expression)
    | None | Some VNull => Ok (group0 full_expression)
    | Some (VBool b) => Ok (if b then "true" else "false")
    | Some (VInt n) => Ok (str_int n)
    | Some (VFloat f) => Ok (float_str f)
    | Some (VString s) => Ok (quoted s)
    end.

Fixpoint render (overrides : dict) (segments : list segment) : result string :=
  match segments with
  | [] => Ok EmptyString
  | Chr c :: rest => tail <- render overrides rest ;; Ok (String c tail)
  | Placeholder e :: rest =>
      text <- replace overrides e ;;
      tail <- render overrides rest ;;
      Ok (text ++ tail)
  end.

(** Line 274: [re.sub(pattern, replace, value)] *)
Definition re_sub (overrides : dict) (value : string) : result string :=
  render overrides (scan value).

(** Lines 277-295: what [replace_variable] returns for the substituted text *)
Definition coerce_result (result : string) : Value :=
  if startswith (String dquote EmptyString) result
     && endswith (String dquote EmptyString) result
  then VString (slice_1_m1 result)
  else if String.eqb result "true" || String.eqb result "false"
  then VBool (String.eqb result "true")
  else if String.eqb result "null" then VString result
  else match py_int result with
       | Some n => VInt n
       | None =>
           match py_float result with
           | Some f => VFloat f
           | None => VString result
           end
       end.

(** Lines 238-301 *)
Fixpoint replace_variable (overrides : dict) (value : Value) : result Value :=
  match value with
  | VString s => result <- re_sub overrides s ;; Ok (coerce_result result)
  | VObject members =>
      members' <-
        (fix each (ms : list (string * Value)) : result (list (string * Value)) :=
           match ms with
           | [] => Ok []
           | (k, v) :: rest =>
               v' <- replace_variable overrides v ;;
               rest' <- each rest ;;
               Ok ((k, v') :: rest')
           end) members ;;
      Ok (VObject members')
  | VArray items =>
      items' <-
        (fix each (xs : list Value) : result (list Value) :=
           match xs with
           | [] => Ok []
           | item :: rest =>
               item' <- replace_variable overrides item ;;
               rest' <- each rest ;;
               Ok (item' :: rest')
           end) items ;;
      Ok (VArray items')
  | _ => Ok value
  end.

(** Lines 187-191 and their three copies: the value assigned in place of
    a string that starts with the marker *)
Definition resolve_marker (overrides : dict) (text : string) : Value :=
  match dict_get (str_replace marker EmptyString text) overrides with
  | Some replacement => replacement
  | None => VNull
  end.

(** Lines 186-205 (and 214-233): what a string member or item becomes *)
Definition replace_string (overrides : dict) (value : string) : result Value :=
  if startswith marker value then Ok (resolve_marker overrides value)
  else
    replaced <- replace_variable overrides (VString value) ;;
    match replaced with
    | VString text =>
        if startswith marker text then Ok (resolve_marker overrides text)
        else Ok replaced
    | _ => Ok replaced
    end.

(** Lines 177-236.  The function assigns into [obj] and returns it; the
    assignments are to the keys and indexes being visited, so the result
    is the tree with each member or item replaced in its place. *)
Fixpoint replace_variables (overrides : dict) (obj : Value) : result Value :=
  match obj with
  | VObject members =>
      members' <-
        (fix each (ms : list (string * Value)) : result (list (string * Value)) :=
           match ms with
           | [] => Ok []
           | (key, value) :: rest =>
               value' <- match value with
                         | VString s => replace_string overrides s
                         | _ => replace_variables overrides value
                         end ;;
               rest' <- each rest ;;
               Ok ((key, value') :: rest')
           end) members ;;
      Ok (VObject members')
  | VArray items =>
      items' <-
        (fix each (xs : list Value) : result (list Value) :=
           match xs with
           | [] => Ok []
           | item :: rest =>
               item' <- match item with
                        | VString s => replace_string overrides s
                        | _ => replace_variables overrides item
                        end ;;
               rest' <- each rest ;;
               Ok (item' :: rest')
           end) items ;;
      Ok (VArray items')
  | _ => Ok obj
  end.

(** The loops of lines 181-207 and 209-235 under names *)
Definition replace_member (overrides : dict) (value : Value) : result Value :=
  match value with
  | VString s => replace_string overrides s
  | _ => replace_variables overrides value
  end.

Definition replace_members (overrides : dict)
  : list (string * Value) -> result (list (string * Value)) :=
  fix each (ms : list (string * Value)) : result (list (string * Value)) :=
    match ms with
    | [] => Ok []
    | (key, value) :: rest =>
        value' <- replace_member overrides value ;;
        rest' <- each rest ;;
        Ok ((key, value') :: rest')
    end.

Definition replace_items (overrides : dict) : list Value -> result (list Value) :=
  fix each (xs : list Value) : result (list Value) :=
    match xs with
    | [] => Ok []
    | item :: rest =>
        item' <- replace_member overrides item ;;
        rest' <- each rest ;;
        Ok (item' :: rest')
    end.

(** Lines 66-114: the table the placeholders are resolved against *)
Definition resolve_overrides (defaults : Value) (runtime_overrides : string)
  : result dict :=
  overrides <- parse_overrides runtime_overrides ;;
  merge_defaults defaults overrides.

(** Lines 63-305 *)
Definition apply_runtime_overrides (data : Value) (runtime_overrides : string)
  : result Value :=
  match data with
  | VObject members =>
      let defaults := defaults_of members in
      if negb (truthy defaults) && negb (truthy (VString runtime_overrides))
      then Ok data
      else
        let members' :=
          if truthy defaults then dict_pop "defaults" members else members in
        overrides <- resolve_overrides defaults runtime_overrides ;;
        replace_variables overrides (VObject members')
  | _ => Raise (AttributeError "object has no attribute 'get'")
  end.

(** Lines 37-40: each schema is a check that passes or raises *)
Fixpoint validate_all (schemas : list (Value -> result unit)) (instance : Value)
  : result unit :=
  match schemas with
  | [] => Ok tt
  | validate :: rest => _ <- validate instance ;; validate_all rest instance
  end.

(** Lines 28-61, from the parsed document to the value handed to
    [json.dumps]; the handlers turn the two exceptions they name into an
    exit with a message. *)
Definition validate_and_output_json (file_path : string) (data : Value)
    (runtime_overrides : string) (schemas : list (Value -> result unit))
  : result Value :=
  let attempt :=
    cleaned_data <- apply_runtime_overrides data runtime_overrides ;;
    _ <- validate_all schemas cleaned_data ;;
    Ok (remove_disabled_elements cleaned_data) in
  match attempt with
  | Raise (JSONDecodeError e) =>
      Raise (SystemExit ("Invalid JSON content in " ++ file_path ++ newline ++ "Error: " ++ e))
  | Raise (ValidationError e) =>
      Raise (SystemExit ("JSON validation error" ++ newline ++ "Error: " ++ e))
  | other => other
  end.

End Engine.

(* ================================================================= *)
(** ** Paths into a document *)

Inductive step : Type :=
| Key (k : string)
| Index (i : nat).

(** The value a path of keys and indexes leads to *)
Fixpoint get_path (p : list step) (v : Value) : option Value :=
  match p with
  | [] => Some v
  | Key k :: rest =>
      match v with
      | VObject members =>
          match dict_get k members with
          | Some x => get_path rest x
          | None => None
          end
      | _ => None
      end
  | Index i :: rest =>
      match v with
      | VArray items =>
          match nth_error items i with
          | Some x => get_path rest x
          | None => None
          end
      | _ => None
      end
  end.

(** The characters of a string as the segments of a text without a match *)
Fixpoint chars (s : string) : list segment :=
  match s with
  | EmptyString => []
  | String a t => Chr a :: chars t
  end.

(** The text a list of segments was cut from: each match stands for its
    whole text, [match.group(0)] *)
Fixpoint unparse (segments : list segment) : string :=
  match segments with
  | [] => EmptyString
  | Chr c :: rest => String c (unparse rest)
  | Placeholder e :: rest => group0 e ++ unparse rest
  end.

(** The value of the first element of a defaults list that has the key *)
Fixpoint first_default (k : string) (defaults : list dict) : option Value :=
  match defaults with
  | [] => None
  | d :: rest =>
      match dict_get k d with
      | Some v => Some v
      | None => first_default k rest
      end
  end.

(** A value the pruning pass has nothing to do on: no null, no empty
    object or array, no object whose [disabled] member equals [True] *)
Fixpoint clean (v : Value) : bool :=
  match v with
  | VNull => false
  | VObject members =>
      match members with [] => false | _ :: _ => true end
      && negb match dict_get "disabled" members with
              | Some d => eq_True d
              | None => false
              end
      && (fix all (ms : list (string * Value)) : bool :=
            match ms with
            | [] => true
            | (_, x) :: rest => clean x && all rest
            end) members
  | VArray items =>
      match items with [] => false | _ :: _ => true end
      && (fix all (xs : list Value) : bool :=
            match xs with
            | [] => true
            | x :: rest => clean x && all rest
            end) items
  | _ => true
  end.

Section Plain.
Context `{PyRuntime}.

(** A string the substitution pass returns as it is: no placeholder, no
    marker at its head, and a text lines 277-295 keep as a string *)
Definition plain_string (s : string) : bool :=
  negb (has_placeholder s)
  && negb (startswith marker s)
  && match coerce_result s with
     | VString t => String.eqb t s
     | _ => false
     end.

Fixpoint plain (v : Value) : bool :=
  match v with
  | VString s => plain_string s
  | VObject members =>
      (fix all (ms : list (string * Value)) : bool :=
         match ms with
         | [] => true
         | (_, x) :: rest => plain x && all rest
         end) members
  | VArray items =>
      (fix all (xs : list Value) : bool :=
         match xs with
         | [] => true
         | x :: rest => plain x && all rest
         end) items
  | _ => true
  end.

(** What [int] and [float] of CPython never accept: a text with a double
    quote in it, a text that starts with an underscore, and the three
    words lines 284-286 look for. *)
Class PyNumberLaws : Prop := {
  int_no_quote : forall s n,
    py_int s = Some n -> contains (String dquote EmptyString) s = false;
  int_no_underscore : forall s n,
    py_int s = Some n -> startswith "_" s = false;
  int_no_keyword : forall s n,
    py_int s = Some n -> mem_string s ["true"; "false"; "null"] = false;
  float_no_quote : forall s f,
    py_float s = Some f -> contains (String dquote EmptyString) s = false;
  float_no_underscore : forall s f,
    py_float s = Some f -> startswith "_" s = false;
  float_no_keyword : forall s f,
    py_float s = Some f -> mem_string s ["true"; "false"; "null"] = false
}.
End Plain.

(* ================================================================= *)
(** ** A small runtime to run the definitions on examples

    Integers in ASCII decimal with an optional sign, a few float
    literals, and the parsed forms of the texts the examples use. *)

Definition digit_of (c : ascii) : option Z :=
  let n := nat_of_ascii c in
  if (48 <=? n)%nat && (n <=? 57)%nat then Some (Z.of_nat (n - 48)) else None.

Fixpoint digits_acc (acc : Z) (s : string) : option Z :=
  match s with
  | EmptyString => Some acc
  | String c t =>
      match digit_of c with
      | Some d => digits_acc (10 * acc + d) t
      | None => None
      end
  end.

Definition decimal (s : string) : option Z :=
  match s with
  | EmptyString => None
  | String _ _ => digits_acc 0 s
  end.

Definition sample_int (s : string) : option Z :=
  match s with
  | EmptyString => None
  | String c t =>
      if Ascii.eqb c "-"%char then option_map Z.opp (decimal t)
      else if Ascii.eqb c "+"%char then decimal t
      else decimal s
  end.

Definition sample_floats : list (string * float) :=
  [("0.5", 0.5%float); ("1.0", 1%float); ("2.5", 2.5%float)].

Definition sample_float (s : string) : option float :=
  match find (fun kv => String.eqb s (fst kv)) sample_floats with
  | Some kv => Some (snd kv)
  | None => None
  end.

Definition sample_float_str (f : float) : string :=
  match find (fun kv => PrimFloat.eqb f (snd kv)) sample_floats with
  | Some kv => fst kv
  | None => "nan"
  end.

Definition lookup_text {A : Type} (table : list (string * A)) (e : exn) (s : string)
  : result A :=
  match find (fun kv => String.eqb s (fst kv)) table with
  | Some kv => Ok (snd kv)
  | None => Raise e
  end.

(** The text [{"k": 1}] *)
Definition object_text : string := "{" ++ quoted "k" ++ ": 1}".

Definition leaf (cls : string) : ast := Node cls [] [].
Definition name_node (id : string) : ast := Node "Name" [("id", CStr id)] [leaf "Load"].
Definition constant_node (c : constant) : ast := Node "Constant" [("value", c)] [].

(** [ast.parse("x + 1 if flag else 2", mode='eval')] *)
Definition binop_tree : ast :=
  Node "Expression" []
    [Node "IfExp" []
       [name_node "flag";
        Node "BinOp" [] [name_node "x"; leaf "Add"; constant_node (CInt 1)];
        constant_node (CInt 2)]].

(** [ast.parse("1 if level == 2 else 3", mode='eval')] *)
Definition compare_tree : ast :=
  Node "Expression" []
    [Node "IfExp" []
       [Node "Compare" [] [name_node "level"; leaf "Eq"; constant_node (CInt 2)];
        constant_node (CInt 1);
        constant_node (CInt 3)]].

Definition value_of_constant (c : constant) : result Value :=
  match c with
  | CNone => Ok VNull
  | CBool b => Ok (VBool b)
  | CInt n => Ok (VInt n)
  | CFloat f => Ok (VFloat f)
  | CStr s => Ok (VString s)
  | CRepr _ => Raise (TypeError "constant outside the sample")
  end.

(** Evaluation of constants, names, the conditional expression and the
    comparison of two integers; an unbound name fails as line 138 expects *)
Fixpoint sample_eval (tree : ast) (context : dict) : result Value :=
  match tree with
  | Node cls attrs cs =>
      if String.eqb cls "Expression" then
        match cs with
        | [body] => sample_eval body context
        | _ => Raise (TypeError "malformed tree")
        end
      else if String.eqb cls "Constant" then
        match attrs with
        | [(_, c)] => value_of_constant c
        | _ => Raise (TypeError "malformed tree")
        end
      else if String.eqb cls "Name" then
        match attrs with
        | [(_, CStr id)] =>
            match dict_get id context with
            | Some v => Ok v
            | None => Raise (TypeError "'NoneType' object is not subscriptable")
            end
        | _ => Raise (TypeError "malformed tree")
        end
      else if String.eqb cls "IfExp" then
        match cs with
        | [test; body; orelse] =>
            t <- sample_eval test context ;;
            if truthy t then sample_eval body context else sample_eval orelse context
        | _ => Raise (TypeError "malformed tree")
        end
      else if String.eqb cls "Compare" then
        match cs with
        | [lhs; op; rhs] =>
            l <- sample_eval lhs context ;;
            r <- sample_eval rhs context ;;
            match l, r with
            | VInt a, VInt b =>
                if String.eqb (cls_of op) "Eq" then Ok (VBool (Z.eqb a b))
                else if String.eqb (cls_of op) "NotEq" then Ok (VBool (negb (Z.eqb a b)))
                else if String.eqb (cls_of op) "Lt" then Ok (VBool (Z.ltb a b))
                else if String.eqb (cls_of op) "LtE" then Ok (VBool (Z.leb a b))
                else if String.eqb (cls_of op) "Gt" then Ok (VBool (Z.gtb a b))
                else if String.eqb (cls_of op) "GtE" then Ok (VBool (Z.geb a b))
                else Raise (TypeError "operator outside the sample")
            | _, _ => Raise (TypeError "operands outside the sample")
            end
        | _ => Raise (TypeError "comparison outside the sample")
        end
      else Raise (TypeError "node outside the sample")
  end.

#[export] Instance sample_runtime : PyRuntime := {
  py_int := sample_int;
  py_float := sample_float;
  float_str := sample_float_str;
  container_str := fun _ => "{...}";
  json_loads :=
    lookup_text [(object_text, VObject [("k", VInt 1)])]
      (JSONDecodeError "Expecting value");
  literal_eval :=
    lookup_text [("[1, 2]", VArray [VInt 1; VInt 2])]
      (ValueError "malformed node or string");
  ast_parse :=
    lookup_text [("x + 1 if flag else 2", binop_tree);
                 ("1 if level == 2 else 3", compare_tree);
                 ("notify_else", Node "Expression" [] [name_node "notify_else"])]
      (SyntaxError "invalid syntax");
  py_eval := sample_eval
}.

(* ================================================================= *)
(** * Properties *)

(** ** Induction on values and on syntax trees *)

Lemma Value_ind (P : Value -> Prop)
    (HNull : P VNull)
    (HBool : forall b, P (VBool b))
    (HInt : forall n, P (VInt n))
    (HFloat : forall f, P (VFloat f))
    (HString : forall s, P (VString s))
    (HObject : forall members, Forall (fun kv => P (snd kv)) members -> P (VObject members))
    (HArray : forall items, Forall P items -> P (VArray items)) :
  forall v, P v.
Proof.
  fix IH 1.
  intros [ | b | n | f | s | members | items ].
  - exact HNull.
  - apply HBool.
  - apply HInt.
  - apply HFloat.
  - apply HString.
  - apply HObject.
    induction members as [ | [k x] rest IHrest ]; constructor; [ apply IH | exact IHrest ].
  - apply HArray.
    induction items as [ | x rest IHrest ]; constructor; [ apply IH | exact IHrest ].
Qed.

(** ** The pruning pass *)

Lemma remove_disabled_object members :
  remove_disabled_elements (VObject members) =
  if disabled_flag members then VNull
  else match prune_members members with
       | [] => VNull
       | _ :: _ => VObject (prune_members members)
       end.
Proof. reflexivity. Qed.

Lemma remove_disabled_array items :
  remove_disabled_elements (VArray items) =
  match prune_items items with
  | [] => VNull
  | _ :: _ => VArray (prune_items items)
  end.
Proof. reflexivity. Qed.

Lemma eq_True_pruned v :
  eq_True (remove_disabled_elements v) = true -> eq_True v = true.
Proof.
  destruct v as [ | b | n | f | s | members | items ]; try (intro E; exact E).
  - rewrite remove_disabled_object.
    destruct (disabled_flag members); [ discriminate | ].
    destruct (prune_members members); discriminate.
  - rewrite remove_disabled_array.
    destruct (prune_items items); discriminate.
Qed.

Lemma dict_get_prune_absent k members :
  dict_get k members = None -> dict_get k (prune_members members) = None.
Proof.
  induction members as [ | [k' x] rest IH ]; simpl; [ reflexivity | ].
  destruct (String.eqb k k') eqn:E; [ discriminate | ].
  intro Hrest.
  destruct (is_none (remove_disabled_elements x)); simpl; [ auto | ].
  rewrite E. auto.
Qed.

Lemma dict_get_prune k members :
  unique_keys members = true ->
  dict_get k (prune_members members) =
  match dict_get k members with
  | Some v => if is_none (remove_disabled_elements v) then None
              else Some (remove_disabled_elements v)
  | None => None
  end.
Proof.
  induction members as [ | [k' x] rest IH ]; simpl; [ reflexivity | ].
  intro U. apply andb_true_iff in U as [Hfresh U].
  destruct (String.eqb k k') eqn:E.
  - apply String.eqb_eq in E. subst k'.
    destruct (is_none (remove_disabled_elements x)) eqn:N.
    + apply dict_get_prune_absent.
      unfold dict_has in Hfresh.
      destruct (dict_get k rest); [ discriminate | reflexivity ].
    + simpl. rewrite String.eqb_refl. reflexivity.
  - destruct (is_none (remove_disabled_elements x)); simpl.
    + auto.
    + rewrite E. auto.
Qed.

Lemma disabled_flag_pruned members :
  unique_keys members = true ->
  disabled_flag members = false ->
  disabled_flag (prune_members members) = false.
Proof.
  intros U D. unfold disabled_flag in *.
  rewrite dict_get_prune by exact U.
  destruct (dict_get "disabled" members) as [v | ]; [ | reflexivity ].
  destruct (is_none (remove_disabled_elements v)); [ reflexivity | ].
  destruct (eq_True (remove_disabled_elements v)) eqn:E; [ | reflexivity ].
  apply eq_True_pruned in E. congruence.
Qed.

Lemma wf_object members :
  wf_value (VObject members) = true ->
  unique_keys members = true /\ Forall (fun kv => wf_value (snd kv) = true) members.
Proof.
  simpl. intro W. apply andb_true_iff in W as [U A]. split; [ exact U | ].
  clear U. induction members as [ | [k x] rest IH ]; constructor.
  - apply andb_true_iff in A as [A _]. exact A.
  - apply IH. apply andb_true_iff in A as [_ A]. exact A.
Qed.

Lemma wf_array items :
  wf_value (VArray items) = true -> Forall (fun x => wf_value x = true) items.
Proof.
  simpl. induction items as [ | x rest IH ]; intro A; constructor.
  - apply andb_true_iff in A as [A _]. exact A.
  - apply IH. apply andb_true_iff in A as [_ A]. exact A.
Qed.

Lemma prune_members_fixed members :
  Forall (fun kv => wf_value (snd kv) = true ->
                    remove_disabled_elements (remove_disabled_elements (snd kv))
                    = remove_disabled_elements (snd kv)) members ->
  Forall (fun kv => wf_value (snd kv) = true) members ->
  prune_members (prune_members members) = prune_members members.
Proof.
  induction 1 as [ | [k x] rest Hx _ IH ]; intro W; [ reflexivity | ].
  inversion W as [ | ? ? Wx Wrest ]; subst. simpl in *.
  destruct (is_none (remove_disabled_elements x)) eqn:N; [ auto | ].
  simpl. rewrite (Hx Wx), N. f_equal. auto.
Qed.

Lemma prune_items_fixed items :
  Forall (fun x => wf_value x = true ->
                   remove_disabled_elements (remove_disabled_elements x)
                   = remove_disabled_elements x) items ->
  Forall (fun x => wf_value x = true) items ->
  prune_items (prune_items items) = prune_items items.
Proof.
  induction 1 as [ | x rest Hx _ IH ]; intro W; [ reflexivity | ].
  inversion W as [ | ? ? Wx Wrest ]; subst. simpl in *.
  destruct (is_none (remove_disabled_elements x)) eqn:N; [ auto | ].
  simpl. rewrite (Hx Wx), N. f_equal. auto.
Qed.

(** C6.  Pruning is idempotent: on every value whose objects have unique
    keys (every value Python builds from JSON), pruning the pruned value
    returns the pruned value, where the removed marker is the null value. *)
Theorem remove_disabled_elements_idempotent (v : Value) :
  wf_value v = true ->
  remove_disabled_elements (remove_disabled_elements v) = remove_disabled_elements v.
Proof.
  induction v as [ | b | n | f | s | members IH | items IH ] using Value_ind;
    intro W; try reflexivity.
  - apply wf_object in W as [U W].
    rewrite remove_disabled_object.
    destruct (disabled_flag members) eqn:D; [ reflexivity | ].
    destruct (prune_members members) as [ | m rest ] eqn:P; [ reflexivity | ].
    rewrite <- P, remove_disabled_object.
    rewrite (disabled_flag_pruned members U D).
    rewrite (prune_members_fixed members IH W).
    rewrite P. reflexivity.
  - apply wf_array in W.
    rewrite remove_disabled_array.
    destruct (prune_items items) as [ | m rest ] eqn:P; [ reflexivity | ].
    rewrite <- P, remove_disabled_array.
    rewrite (prune_items_fixed items IH W).
    rewrite P. reflexivity.
Qed.

Lemma remove_disabled_elements_idempotent_witness :
  wf_value (VObject [("a", VObject [("disabled", VBool true)]);
                     ("b", VArray [VInt 1; VObject []])]) = true
  /\ remove_disabled_elements
       (remove_disabled_elements
          (VObject [("a", VObject [("disabled", VBool true)]);
                    ("b", VArray [VInt 1; VObject []])]))
     = remove_disabled_elements
         (VObject [("a", VObject [("disabled", VBool true)]);
                   ("b", VArray [VInt 1; VObject []])]).
Proof.
  split; [ reflexivity | ].
  apply (remove_disabled_elements_idempotent
           (VObject [("a", VObject [("disabled", VBool true)]);
                     ("b", VArray [VInt 1; VObject []])])).
  reflexivity.
Defined.

Lemma scalar_member_kept (k : string) (v : Value) (members : list (string * Value)) :
  In (k, v) members -> is_container v = false -> is_none v = false ->
  In (k, v) (prune_members members).
Proof.
  intros Hin C N.
  assert (R : remove_disabled_elements v = v) by (destruct v; try reflexivity; discriminate).
  induction members as [ | [k' x] rest IH ]; [ contradiction | ].
  cbn [prune_members]. fold prune_members.
  destruct Hin as [Hin | Hin].
  - injection Hin as -> ->. rewrite R, N. left. reflexivity.
  - destruct (is_none (remove_disabled_elements x)); [ | right ]; exact (IH Hin).
Qed.

(** C4.  The function returns a scalar given to it as it is, and a
    boolean, number or string member is never dropped from the members of
    an object; a null member of an object or item of an array is dropped
    with the removed ones, as the two evaluations show. *)
Theorem remove_disabled_elements_drops_null_member :
  (forall v, is_container v = false -> remove_disabled_elements v = v)
  /\ (forall k v members,
        In (k, v) members -> is_container v = false -> is_none v = false ->
        In (k, v) (prune_members members))
  /\ remove_disabled_elements (VObject [("a", VNull); ("b", VInt 1)])
     = VObject [("b", VInt 1)]
  /\ remove_disabled_elements (VArray [VInt 1; VNull]) = VArray [VInt 1].
Proof.
  split; [ | split; [ exact scalar_member_kept | split; reflexivity ] ].
  intros [ | b | n | f | s | members | items ] E; try reflexivity; discriminate.
Qed.

(** ** The binding table *)

Lemma dict_get_set k k' v d :
  dict_get k (dict_set k' v d) = if String.eqb k k' then Some v else dict_get k d.
Proof.
  induction d as [ | [k'' v''] rest IH ]; simpl.
  - destruct (String.eqb k k'); reflexivity.
  - destruct (String.eqb k' k'') eqn:E1; simpl.
    + apply String.eqb_eq in E1. subst k''.
      destruct (String.eqb k k'); reflexivity.
    + rewrite IH.
      destruct (String.eqb k k'') eqn:E2; [ | reflexivity ].
      apply String.eqb_eq in E2. subst k''.
      rewrite String.eqb_sym, E1. reflexivity.
Qed.

Lemma dict_get_pop_other k k' d :
  String.eqb k k' = false -> dict_get k (dict_pop k' d) = dict_get k d.
Proof.
  intro N. induction d as [ | [k'' v] rest IH ]; simpl; [ reflexivity | ].
  destruct (String.eqb k' k'') eqn:E.
  - apply String.eqb_eq in E. subst k''. rewrite N. reflexivity.
  - simpl. rewrite IH. reflexivity.
Qed.

Section Binding.
Context `{PyRuntime}.

Lemma dict_get_merge_default k items overrides :
  dict_get k (merge_default items overrides) =
  match dict_get k overrides with
  | Some v => Some v
  | None => dict_get k items
  end.
Proof.
  revert overrides.
  induction items as [ | [key value] rest IH ]; intro overrides; simpl.
  - destruct (dict_get k overrides); reflexivity.
  - rewrite IH. unfold dict_has.
    destruct (dict_get key overrides) as [held | ] eqn:G.
    + destruct (dict_get k overrides) eqn:G'; [ reflexivity | ].
      destruct (String.eqb k key) eqn:E; [ | reflexivity ].
      apply String.eqb_eq in E. subst key. congruence.
    + rewrite dict_get_set.
      destruct (String.eqb k key) eqn:E; [ | reflexivity ].
      apply String.eqb_eq in E. subst key. rewrite G. reflexivity.
Qed.

Lemma merge_defaults_list_objects (defaults : list dict) overrides :
  exists table,
    merge_defaults_list (map VObject defaults) overrides = Ok table
    /\ forall k, dict_get k table =
                 match dict_get k overrides with
                 | Some v => Some v
                 | None => first_default k defaults
                 end.
Proof.
  revert overrides.
  induction defaults as [ | d rest IH ]; intro overrides; simpl.
  - exists overrides. split; [ reflexivity | ].
    intro k. destruct (dict_get k overrides); reflexivity.
  - destruct (IH (merge_default d overrides)) as [table [E L]].
    exists table. split; [ exact E | ].
    intro k. rewrite L, dict_get_merge_default.
    destruct (dict_get k overrides); [ reflexivity | ].
    destruct (dict_get k d); reflexivity.
Qed.

(** C1.  For every defaults list of objects and every override string
    that parses, the resolved table gives a key its runtime override
    when the string has one, wherever the key stands in the defaults,
    and otherwise the value of the first element of the defaults list
    that has the key. *)
Theorem resolve_overrides_precedence
    (defaults : list dict) (runtime_overrides : string) (explicit : dict) :
  parse_overrides runtime_overrides = Ok explicit ->
  exists table,
    resolve_overrides (VArray (map VObject defaults)) runtime_overrides = Ok table
    /\ forall k, dict_get k table =
                 match dict_get k explicit with
                 | Some v => Some v
                 | None => first_default k defaults
                 end.
Proof.
  intro P. unfold resolve_overrides. rewrite P. simpl.
  apply merge_defaults_list_objects.
Qed.
End Binding.

Lemma resolve_overrides_precedence_witness :
  parse_overrides "env=dev" = Ok [("env", VString "dev")]
  /\ exists table,
       resolve_overrides
         (VArray (map VObject [[("env", VString "prod")];
                               [("env", VString "staging"); ("region", VString "us")];
                               [("region", VString "eu")]]))
         "env=dev" = Ok table
       /\ forall k, dict_get k table =
                    match dict_get k [("env", VString "dev")] with
                    | Some v => Some v
                    | None =>
                        first_default k
                          [[("env", VString "prod")];
                           [("env", VString "staging"); ("region", VString "us")];
                           [("region", VString "eu")]]
                    end.
Proof.
  split; [ reflexivity | ].
  apply (resolve_overrides_precedence
           [[("env", VString "prod")];
            [("env", VString "staging"); ("region", VString "us")];
            [("region", VString "eu")]]
           "env=dev" [("env", VString "dev")]).
  reflexivity.
Defined.

(** ** The walk over a syntax tree *)

Lemma nodes_node cls attrs cs :
  nodes (Node cls attrs cs) = Node cls attrs cs :: flat_map nodes cs.
Proof. reflexivity. Qed.

Lemma node_count_node cls attrs cs :
  node_count (Node cls attrs cs) = S (list_sum (map node_count cs)).
Proof.
  simpl. f_equal. induction cs as [ | c rest IH ]; simpl; [ reflexivity | ].
  rewrite IH. reflexivity.
Qed.

Lemma node_count_pos n : (0 < node_count n)%nat.
Proof. destruct n. rewrite node_count_node. lia. Qed.

Lemma list_sum_count_app (l1 l2 : list ast) :
  list_sum (map node_count (l1 ++ l2)) =
  (list_sum (map node_count l1) + list_sum (map node_count l2))%nat.
Proof. rewrite map_app, list_sum_app. reflexivity. Qed.

(** With fuel for every node waiting in the queue or below it, the walk
    reaches every node. *)
Lemma walk_queue_complete fuel :
  forall todo,
    (list_sum (map node_count todo) <= fuel)%nat ->
    forall n, In n (flat_map nodes todo) -> In n (walk_queue fuel todo).
Proof.
  induction fuel as [ | fuel IH ]; intros todo Hfuel n Hin.
  - destruct todo as [ | node rest ]; [ contradiction | ].
    change (node_count node + list_sum (map node_count rest) <= 0)%nat in Hfuel.
    pose proof (node_count_pos node). lia.
  - destruct todo as [ | [cls attrs cs] rest ]; [ contradiction | ].
    cbn [flat_map] in Hin. rewrite nodes_node in Hin.
    cbn [walk_queue children_of].
    destruct Hin as [Hhead | Hin]; [ left; exact Hhead | right ].
    apply IH.
    + change (node_count (Node cls attrs cs) + list_sum (map node_count rest)
              <= S fuel)%nat in Hfuel.
      rewrite node_count_node in Hfuel.
      rewrite list_sum_count_app. lia.
    + rewrite flat_map_app. apply in_app_iff.
      apply in_app_iff in Hin. tauto.
Qed.

Lemma walk_queue_sound fuel :
  forall todo n, In n (walk_queue fuel todo) -> In n (flat_map nodes todo).
Proof.
  induction fuel as [ | fuel IH ]; intros todo n Hin; [ contradiction | ].
  destruct todo as [ | [cls attrs cs] rest ]; [ contradiction | ].
  cbn [walk_queue children_of] in Hin. cbn [flat_map]. rewrite nodes_node.
  destruct Hin as [Hhead | Hin]; [ left; exact Hhead | right ].
  apply IH in Hin. rewrite flat_map_app in Hin.
  apply in_app_iff. apply in_app_iff in Hin. tauto.
Qed.

Lemma ast_walk_nodes tree n : In n (ast_walk tree) <-> In n (nodes tree).
Proof.
  unfold ast_walk. split; intro Hin.
  - apply walk_queue_sound in Hin. simpl in Hin. rewrite app_nil_r in Hin. exact Hin.
  - apply walk_queue_complete.
    + simpl. lia.
    + simpl. rewrite app_nil_r. exact Hin.
Qed.

Section Conditional.
Context `{PyRuntime}.

(** C2, as the code has it.  For every conditional placeholder
    expression that parses to a tree with a node outside the allowed
    classes, the evaluation raises the ValueError that names the first
    such node of the walk, and the callback of the substitution catches
    it: the placeholder is replaced by its own text and nothing is
    raised to the run. *)
Theorem unsupported_expression_left_in_place
    (overrides : dict) (expression : string) (tree : ast) :
  contains "if" expression && contains "else" expression = true ->
  ast_parse expression = Ok tree ->
  (exists node, In node (nodes tree) /\ allowed node = false) ->
  exists offending,
    In offending (nodes tree)
    /\ allowed offending = false
    /\ find (fun node => negb (allowed node)) (ast_walk tree) = Some offending
    /\ evaluate_conditional overrides expression
       = Raise (ValueError ("Unsupported operation: " ++ cls_of offending))
    /\ replace overrides expression = Ok (group0 expression).
Proof.
  intros Hcond Hparse [node [Hin Hbad]].
  destruct (find (fun node => negb (allowed node)) (ast_walk tree))
    as [offending | ] eqn:F.
  - exists offending.
    destruct (find_some _ _ F) as [Hwalk Hneg].
    apply ast_walk_nodes in Hwalk. apply negb_true_iff in Hneg.
    assert (E : evaluate_conditional overrides expression
                = Raise (ValueError ("Unsupported operation: " ++ cls_of offending))).
    { unfold evaluate_conditional, safe_evaluate_condition.
      rewrite Hparse. simpl. rewrite F. reflexivity. }
    repeat split; try assumption.
    unfold replace. rewrite Hcond, E. reflexivity.
  - exfalso.
    apply ast_walk_nodes in Hin.
    pose proof (find_none _ _ F node Hin) as Hnone.
    simpl in Hnone. rewrite Hbad in Hnone. discriminate.
Qed.
End Conditional.

Lemma unsupported_expression_left_in_place_witness :
  exists offending,
    In offending (nodes binop_tree)
    /\ allowed offending = false
    /\ find (fun node => negb (allowed node)) (ast_walk binop_tree) = Some offending
    /\ evaluate_conditional [("flag", VBool true)] "x + 1 if flag else 2"
       = Raise (ValueError ("Unsupported operation: " ++ cls_of offending))
    /\ replace [("flag", VBool true)] "x + 1 if flag else 2"
       = Ok (group0 "x + 1 if flag else 2").
Proof.
  apply (unsupported_expression_left_in_place
           [("flag", VBool true)] "x + 1 if flag else 2" binop_tree).
  - reflexivity.
  - reflexivity.
  - exists (leaf "Add"). split; [ simpl; tauto | reflexivity ].
Defined.

(** C2 fails as stated: the expression [x + 1 if flag else 2] has a BinOp
    node, and the run returns the document with the placeholder left as
    it was. *)
Lemma unsupported_expression_run_succeeds :
  ast_parse "x + 1 if flag else 2" = Ok binop_tree
  /\ existsb (fun node => negb (allowed node)) (nodes binop_tree) = true
  /\ validate_and_output_json "config.json"
       (VObject [("a", VString "${x + 1 if flag else 2}")]) "flag=true" []
     = Ok (VObject [("a", VString "${x + 1 if flag else 2}")]).
Proof. repeat split; vm_compute; reflexivity. Qed.

(** ** Strings *)

Lemma append_nil_r (s : string) : s ++ EmptyString = s.
Proof. induction s as [ | a t IH ]; simpl; [ reflexivity | rewrite IH; reflexivity ]. Qed.

Lemma append_assoc (a b c : string) : (a ++ b) ++ c = a ++ (b ++ c).
Proof. induction a as [ | x t IH ]; simpl; [ reflexivity | rewrite IH; reflexivity ]. Qed.

Lemma length_append (a b : string) :
  String.length (a ++ b) = (String.length a + String.length b)%nat.
Proof. induction a as [ | x t IH ]; simpl; [ reflexivity | rewrite IH; reflexivity ]. Qed.

Lemma startswith_app (p s : string) : startswith p (p ++ s) = true.
Proof.
  induction p as [ | a t IH ]; simpl; [ reflexivity | ].
  rewrite Ascii.eqb_refl. exact IH.
Qed.

Lemma startswith_inv (p s : string) :
  startswith p s = true -> exists t, s = p ++ t.
Proof.
  revert s. induction p as [ | a p' IH ]; intros s E.
  - exists s. reflexivity.
  - destruct s as [ | b s' ]; [ discriminate | ].
    simpl in E. apply andb_true_iff in E as [Eab E].
    apply Ascii.eqb_eq in Eab. subst b.
    destruct (IH s' E) as [t ->]. exists t. reflexivity.
Qed.

Lemma startswith_shorter (p q s : string) :
  startswith (p ++ q) s = true -> startswith p s = true.
Proof.
  revert s. induction p as [ | a p' IH ]; intros s E; [ reflexivity | ].
  destruct s as [ | b s' ]; [ discriminate | ].
  simpl in *. apply andb_true_iff in E as [Eab E].
  rewrite Eab. simpl. apply IH. exact E.
Qed.

Lemma contains_here (x s : string) : contains x (x ++ s) = true.
Proof.
  destruct (x ++ s) eqn:E; simpl; rewrite <- E, startswith_app; reflexivity.
Qed.

Lemma contains_cons (x : string) (a : ascii) (s : string) :
  contains x s = true -> contains x (String a s) = true.
Proof. intro E. simpl. rewrite E. apply orb_true_r. Qed.

Lemma contains_app_r (x a s : string) :
  contains x s = true -> contains x (a ++ s) = true.
Proof.
  intro E. induction a as [ | c t IH ]; [ exact E | ].
  simpl append. apply contains_cons. exact IH.
Qed.

Lemma contains_shorter (x y s : string) :
  contains (x ++ y) s = true -> contains x s = true.
Proof.
  induction s as [ | a t IH ]; simpl.
  - rewrite !orb_false_r. apply startswith_shorter.
  - intro E. apply orb_true_iff in E as [E | E].
    + rewrite (startswith_shorter _ _ _ E). reflexivity.
    + rewrite (IH E). apply orb_true_r.
Qed.

Lemma contains_false_head (x s : string) :
  contains x s = false -> startswith x s = false.
Proof.
  destruct s; simpl; intro E; apply orb_false_iff in E as [E _]; exact E.
Qed.

Lemma contains_false_tail (x : string) (a : ascii) (s : string) :
  contains x (String a s) = false -> contains x s = false.
Proof. simpl. intro E. apply orb_false_iff in E as [_ E]. exact E. Qed.

Lemma endswith_app (x s : string) : endswith x (s ++ x) = true.
Proof.
  induction s as [ | a t IH ].
  - destruct x; cbn [append endswith]; rewrite String.eqb_refl; reflexivity.
  - cbn [append endswith]. rewrite IH. apply orb_true_r.
Qed.

Lemma drop_last_app (s : string) (c : ascii) :
  drop_last (s ++ String c EmptyString) = s.
Proof.
  induction s as [ | a t IH ]; [ reflexivity | ].
  destruct t as [ | b t' ]; [ reflexivity | ].
  change (String a (drop_last (String b t' ++ String c EmptyString)) = String a (String b t')).
  rewrite IH. reflexivity.
Qed.

Lemma slice_quoted (inner : string) : slice_1_m1 (quoted inner) = inner.
Proof. unfold quoted, slice_1_m1. apply drop_last_app. Qed.

Lemma quoted_wrapped (inner : string) :
  startswith (String dquote EmptyString) (quoted inner)
  && endswith (String dquote EmptyString) (quoted inner) = true.
Proof.
  unfold quoted.
  change (String dquote (inner ++ String dquote EmptyString))
    with (String dquote inner ++ String dquote EmptyString) at 2.
  rewrite endswith_app. reflexivity.
Qed.

Lemma startswith_marker_underscore (s : string) :
  startswith "_" s = false -> startswith marker s = false.
Proof.
  destruct s as [ | a t ]; [ reflexivity | ].
  unfold marker. simpl. rewrite andb_true_r. intros ->. reflexivity.
Qed.

(** Removing the marker from a text that starts with it and has no other
    occurrence leaves the rest of the text *)
Lemma replace_marker_free (v : string) :
  contains marker v = false -> replace_from 0 marker EmptyString v = v.
Proof.
  induction v as [ | a t IH ]; [ reflexivity | ].
  intro E. pose proof (contains_false_head _ _ E) as Hd.
  apply contains_false_tail in E.
  cbn [replace_from]. rewrite Hd, (IH E). reflexivity.
Qed.

Lemma str_replace_marker (v : string) :
  contains marker v = false -> str_replace marker EmptyString (marker ++ v) = v.
Proof.
  intro E. unfold str_replace, marker. simpl. fold marker.
  apply replace_marker_free. exact E.
Qed.

(** ** The scan for placeholders *)

Lemma scan_from_skip (x y : string) :
  scan_from (String.length x) (x ++ y) = scan_from 0 y.
Proof.
  induction x as [ | a t IH ]; [ destruct y; reflexivity | exact IH ].
Qed.

Lemma until_close_body (v post : string) :
  contains "}" v = false -> until_close (v ++ String "}"%char post) = Some v.
Proof.
  induction v as [ | a t IH ]; intro E; [ reflexivity | ].
  pose proof (contains_false_head _ _ E) as Hd.
  apply contains_false_tail in E.
  change (Ascii.eqb "}"%char a && true = false) in Hd.
  rewrite andb_true_r, Ascii.eqb_sym in Hd.
  cbn [append until_close]. rewrite Hd, (IH E). reflexivity.
Qed.

Lemma placeholder_at_group0 (v post : string) :
  v <> EmptyString -> contains "}" v = false ->
  placeholder_at (group0 v ++ post) = Some v.
Proof.
  intros Hne Hclose. unfold group0.
  change (("${" ++ v ++ "}") ++ post)
    with (String "$"%char (String "{"%char ((v ++ "}") ++ post))).
  rewrite append_assoc.
  change ("}" ++ post) with (String "}"%char post).
  cbn [placeholder_at]. simpl andb. cbn iota.
  rewrite (until_close_body v post Hclose).
  destruct v; [ contradiction | reflexivity ].
Qed.

Lemma scan_group0 (v post : string) :
  v <> EmptyString -> contains "}" v = false ->
  scan (group0 v ++ post) = Placeholder v :: scan post.
Proof.
  intros Hne Hclose. unfold scan.
  pose proof (placeholder_at_group0 v post Hne Hclose) as P.
  unfold group0 in *.
  change (("${" ++ v ++ "}") ++ post)
    with (String "$"%char (String "{"%char (v ++ "}") ++ post)) in *.
  cbn [scan_from]. rewrite P. f_equal.
  replace (String.length v + 2)%nat
    with (String.length (String "{"%char (v ++ "}"))).
  - apply scan_from_skip.
  - cbn [String.length]. rewrite length_append. simpl. lia.
Qed.

(** No match starts in a text without the two opening characters, unless
    what follows the text completes them *)
Lemma scan_literal_prefix (pre k : string) :
  contains "${" pre = false -> startswith "{" k = false ->
  scan (pre ++ k) = (chars pre ++ scan k)%list.
Proof.
  intros Hpre Hk. unfold scan.
  induction pre as [ | a t IH ]; [ reflexivity | ].
  pose proof (contains_false_head _ _ Hpre) as Hd.
  apply contains_false_tail in Hpre.
  cbn [append scan_from chars app].
  assert (N : placeholder_at (String a (t ++ k)) = None).
  { unfold placeholder_at.
    destruct (t ++ k) as [ | b r ] eqn:E; [ reflexivity | ].
    destruct (Ascii.eqb a "$"%char) eqn:Ea; [ | reflexivity ].
    destruct (Ascii.eqb b "{"%char) eqn:Eb; [ | reflexivity ].
    exfalso.
    apply Ascii.eqb_eq in Ea. apply Ascii.eqb_eq in Eb. subst a b.
    destruct t as [ | b' t' ].
    - simpl in E. subst k. discriminate.
    - simpl in E. injection E as -> _. discriminate. }
  rewrite N, (IH Hpre). reflexivity.
Qed.

Lemma scan_plain (s : string) : has_placeholder s = false -> scan s = chars s.
Proof.
  unfold has_placeholder, scan.
  induction s as [ | a t IH ]; [ reflexivity | ].
  cbn [scan_from chars].
  destruct (placeholder_at (String a t)); [ discriminate | ].
  cbn [existsb is_placeholder orb]. intro E. rewrite (IH E). reflexivity.
Qed.

(** ** Substitution in one string *)

Section Substitution.
Context `{PyRuntime}.

Lemma render_chars overrides (pre : string) (rest : list segment) :
  render overrides (chars pre ++ rest)%list =
  (tail <- render overrides rest ;; Ok (pre ++ tail)).
Proof.
  induction pre as [ | a t IH ]; simpl.
  - destruct (render overrides rest); reflexivity.
  - rewrite IH. destruct (render overrides rest); reflexivity.
Qed.

Lemma re_sub_plain overrides (s : string) :
  has_placeholder s = false -> re_sub overrides s = Ok s.
Proof.
  intro E. unfold re_sub. rewrite (scan_plain s E).
  rewrite <- (app_nil_r (chars s)), render_chars. simpl.
  rewrite append_nil_r. reflexivity.
Qed.

(** A text that starts with the marker keeps it through the substitution *)
Lemma re_sub_keeps_head overrides (a : ascii) (t text : string) :
  Ascii.eqb a "$"%char = false ->
  re_sub overrides (String a t) = Ok text ->
  exists tail, text = String a tail.
Proof.
  intros Ha. unfold re_sub, scan. cbn [scan_from].
  assert (N : placeholder_at (String a t) = None).
  { unfold placeholder_at. destruct t; [ reflexivity | ]. rewrite Ha. reflexivity. }
  rewrite N. cbn [render].
  destruct (render overrides (scan_from 0 t)) as [tail | e]; simpl; intro E;
    [ | discriminate ].
  injection E as <-. exists tail. reflexivity.
Qed.

Lemma re_sub_marker_head overrides (s text : string) :
  startswith marker s = true -> re_sub overrides s = Ok text ->
  startswith "_" text = true.
Proof.
  intros Hs E. apply startswith_inv in Hs as [r ->].
  unfold marker in E. cbn [append] in E.
  destruct (re_sub_keeps_head overrides "_"%char _ text eq_refl E) as [tail ->].
  reflexivity.
Qed.

(** What lines 186-205 make of a string that does not start with the
    marker, from the substituted text *)
Lemma replace_string_text overrides (s text : string) :
  startswith marker s = false ->
  re_sub overrides s = Ok text ->
  replace_string overrides s =
  Ok match coerce_result text with
     | VString t => if startswith marker t then resolve_marker overrides t
                    else VString t
     | v => v
     end.
Proof.
  intros Hs E. unfold replace_string. rewrite Hs.
  cbn [replace_variable]. rewrite E. cbn [bind].
  destruct (coerce_result text) as [ | | | | t | | ]; try reflexivity.
  destruct (startswith marker t); reflexivity.
Qed.

Lemma coerce_result_quoted (inner : string) :
  coerce_result (quoted inner) = VString inner.
Proof.
  unfold coerce_result. rewrite quoted_wrapped, slice_quoted. reflexivity.
Qed.

(** ** Substitution in a document *)

Lemma replace_variables_object overrides members :
  replace_variables overrides (VObject members) =
  (members' <- replace_members overrides members ;; Ok (VObject members')).
Proof. reflexivity. Qed.

Lemma replace_variables_array overrides items :
  replace_variables overrides (VArray items) =
  (items' <- replace_items overrides items ;; Ok (VArray items')).
Proof. reflexivity. Qed.

Lemma replace_members_get overrides members members' k x :
  replace_members overrides members = Ok members' ->
  dict_get k members = Some x ->
  exists x', replace_member overrides x = Ok x' /\ dict_get k members' = Some x'.
Proof.
  revert members'.
  induction members as [ | [key value] rest IH ]; intros members' E G;
    [ discriminate | ].
  cbn [replace_members] in E. fold (replace_members overrides) in E.
  destruct (replace_member overrides value) as [value' | e] eqn:Ev;
    [ | discriminate ].
  destruct (replace_members overrides rest) as [rest' | e] eqn:Er;
    [ | discriminate ].
  simpl in E. injection E as <-.
  simpl in G. simpl.
  destruct (String.eqb k key).
  - injection G as <-. exists value'. split; [ exact Ev | reflexivity ].
  - apply (IH rest' eq_refl G).
Qed.

Lemma replace_items_nth overrides items items' i x :
  replace_items overrides items = Ok items' ->
  nth_error items i = Some x ->
  exists x', replace_member overrides x = Ok x' /\ nth_error items' i = Some x'.
Proof.
  revert items' i.
  induction items as [ | item rest IH ]; intros items' i E G;
    [ destruct i; discriminate | ].
  cbn [replace_items] in E. fold (replace_items overrides) in E.
  destruct (replace_member overrides item) as [item' | e] eqn:Ev;
    [ | discriminate ].
  destruct (replace_items overrides rest) as [rest' | e] eqn:Er;
    [ | discriminate ].
  simpl in E. injection E as <-.
  destruct i as [ | i ]; simpl in G; simpl.
  - injection G as <-. exists item'. split; [ exact Ev | reflexivity ].
  - apply (IH rest' i eq_refl G).
Qed.

(** Every string below the root is replaced, where it stands, by what
    lines 186-205 make of it *)
Lemma replace_variables_path overrides (p : list step) :
  forall doc doc' s,
    p <> [] ->
    replace_variables overrides doc = Ok doc' ->
    get_path p doc = Some (VString s) ->
    exists val, replace_string overrides s = Ok val /\ get_path p doc' = Some val.
Proof.
  induction p as [ | st rest IH ]; intros doc doc' s Hne E G; [ contradiction | ].
  destruct st as [k | i].
  - destruct doc as [ | | | | | members | ]; try discriminate.
    rewrite replace_variables_object in E.
    destruct (replace_members overrides members) as [members' | e] eqn:Em;
      [ | discriminate ].
    simpl in E. injection E as <-.
    cbn [get_path] in G. destruct (dict_get k members) as [x | ] eqn:Gk;
      [ | discriminate ].
    destruct (replace_members_get _ _ _ _ _ Em Gk) as [x' [Ex Gx]].
    cbn [get_path]. rewrite Gx.
    destruct rest as [ | st' rest' ].
    + simpl in G. injection G as ->. exists x'. split; [ exact Ex | reflexivity ].
    + assert (Ex' : replace_variables overrides x = Ok x' \/ exists s0, x = VString s0).
      { destruct x; try (left; exact Ex). right. eexists. reflexivity. }
      destruct Ex' as [Ex' | [s0 ->]].
      * apply (IH x x' s); [ discriminate | exact Ex' | exact G ].
      * destruct st'; discriminate G.
  - destruct doc as [ | | | | | | items ]; try discriminate.
    rewrite replace_variables_array in E.
    destruct (replace_items overrides items) as [items' | e] eqn:Em;
      [ | discriminate ].
    simpl in E. injection E as <-.
    cbn [get_path] in G. destruct (nth_error items i) as [x | ] eqn:Gk;
      [ | discriminate ].
    destruct (replace_items_nth _ _ _ _ _ Em Gk) as [x' [Ex Gx]].
    cbn [get_path]. rewrite Gx.
    destruct rest as [ | st' rest' ].
    + simpl in G. injection G as ->. exists x'. split; [ exact Ex | reflexivity ].
    + assert (Ex' : replace_variables overrides x = Ok x' \/ exists s0, x = VString s0).
      { destruct x; try (left; exact Ex). right. eexists. reflexivity. }
      destruct Ex' as [Ex' | [s0 ->]].
      * apply (IH x x' s); [ discriminate | exact Ex' | exact G ].
      * destruct st'; discriminate G.
Qed.
(** In the text rendered from segments, the text that replaces each
    placeholder occurs *)
Lemma render_contains overrides (segments : list segment) :
  forall v r text,
    In (Placeholder v) segments ->
    replace overrides v = Ok r ->
    render overrides segments = Ok text ->
    contains r text = true.
Proof.
  induction segments as [ | g rest IH ]; intros v r text Hin R E; [ contradiction | ].
  destruct g as [c | e]; cbn [render] in E.
  - destruct Hin as [Hin | Hin]; [ discriminate | ].
    destruct (render overrides rest) as [tail | x] eqn:Et; [ | discriminate ].
    cbn [bind] in E. injection E as <-.
    apply contains_cons. apply (IH v r tail Hin R eq_refl).
  - destruct (replace overrides e) as [t | x] eqn:Re; [ | discriminate ].
    destruct (render overrides rest) as [tail | x] eqn:Et; [ | discriminate ].
    cbn [bind] in E. injection E as <-.
    destruct Hin as [Hin | Hin].
    + injection Hin as ->. rewrite R in Re. injection Re as <-.
      apply contains_here.
    + apply contains_app_r. apply (IH v r tail Hin R eq_refl).
Qed.

End Substitution.

(** ** The sample runtime obeys the laws of number parsing *)

Lemma digits_acc_head acc a t n :
  digits_acc acc (String a t) = Some n -> exists d, digit_of a = Some d.
Proof.
  simpl. destruct (digit_of a) as [d | ]; [ eexists; reflexivity | discriminate ].
Qed.

Lemma digit_not (x a : ascii) d :
  digit_of x = None -> digit_of a = Some d -> Ascii.eqb x a = false.
Proof.
  intros Hx Ha. destruct (Ascii.eqb x a) eqn:E; [ | reflexivity ].
  apply Ascii.eqb_eq in E. subst a. congruence.
Qed.

Lemma digits_no_quote t : forall acc n,
  digits_acc acc t = Some n -> contains (String dquote EmptyString) t = false.
Proof.
  induction t as [ | a t IH ]; intros acc n E; [ reflexivity | ].
  destruct (digits_acc_head _ _ _ _ E) as [d Hd].
  simpl in E. rewrite Hd in E.
  cbn [contains startswith]. rewrite (digit_not dquote a d eq_refl Hd).
  simpl. exact (IH _ _ E).
Qed.

Lemma decimal_facts s n :
  decimal s = Some n ->
  contains (String dquote EmptyString) s = false
  /\ startswith "_" s = false
  /\ mem_string s ["true"; "false"; "null"] = false.
Proof.
  destruct s as [ | a t ]; [ discriminate | ].
  unfold decimal. intro E.
  destruct (digits_acc_head _ _ _ _ E) as [d Hd].
  split; [ exact (digits_no_quote _ _ _ E) | ].
  cbn [startswith mem_string existsb String.eqb].
  rewrite (digit_not "_"%char a d eq_refl Hd).
  rewrite (Ascii.eqb_sym a "t"%char), (digit_not "t"%char a d eq_refl Hd).
  rewrite (Ascii.eqb_sym a "f"%char), (digit_not "f"%char a d eq_refl Hd).
  rewrite (Ascii.eqb_sym a "n"%char), (digit_not "n"%char a d eq_refl Hd).
  split; reflexivity.
Qed.

Lemma sample_int_facts s n :
  sample_int s = Some n ->
  contains (String dquote EmptyString) s = false
  /\ startswith "_" s = false
  /\ mem_string s ["true"; "false"; "null"] = false.
Proof.
  destruct s as [ | c t ]; [ discriminate | ].
  unfold sample_int.
  destruct (Ascii.eqb c "-"%char) eqn:Em.
  - apply Ascii.eqb_eq in Em. subst c.
    destruct (decimal t) as [m | ] eqn:D; [ | discriminate ].
    intros _. destruct (decimal_facts t m D) as [Q _].
    cbn [contains startswith]. rewrite Q. repeat split; reflexivity.
  - destruct (Ascii.eqb c "+"%char) eqn:Ep.
    + apply Ascii.eqb_eq in Ep. subst c.
      intro D. destruct (decimal_facts t n D) as [Q _].
      cbn [contains startswith]. rewrite Q. repeat split; reflexivity.
    + apply decimal_facts.
Qed.

Lemma sample_float_facts s f :
  sample_float s = Some f ->
  contains (String dquote EmptyString) s = false
  /\ startswith "_" s = false
  /\ mem_string s ["true"; "false"; "null"] = false.
Proof.
  unfold sample_float, sample_floats. cbn [find fst].
  destruct (String.eqb s "0.5") eqn:E1;
    [ apply String.eqb_eq in E1; subst s; repeat split; reflexivity | ].
  destruct (String.eqb s "1.0") eqn:E2;
    [ apply String.eqb_eq in E2; subst s; repeat split; reflexivity | ].
  destruct (String.eqb s "2.5") eqn:E3;
    [ apply String.eqb_eq in E3; subst s; repeat split; reflexivity | ].
  discriminate.
Qed.

Lemma sample_laws : @PyNumberLaws sample_runtime.
Proof.
  constructor; intros s x E.
  - exact (proj1 (sample_int_facts s x E)).
  - exact (proj1 (proj2 (sample_int_facts s x E))).
  - exact (proj2 (proj2 (sample_int_facts s x E))).
  - exact (proj1 (sample_float_facts s x E)).
  - exact (proj1 (proj2 (sample_float_facts s x E))).
  - exact (proj2 (proj2 (sample_float_facts s x E))).
Qed.

(** ** Claims on the substitution of one placeholder *)

Section Placeholders.
Context `{PyRuntime}.

Lemma replace_container overrides v c :
  contains "if" v && contains "else" v = false ->
  dict_get v overrides = Some c -> is_container c = true ->
  replace overrides v = Ok (marker ++ v).
Proof.
  intros Hc G C. unfold replace. rewrite Hc, G.
  destruct c; try discriminate; reflexivity.
Qed.

Lemma replace_string_value overrides v s :
  contains "if" v && contains "else" v = false ->
  dict_get v overrides = Some (VString s) ->
  replace overrides v = Ok (quoted s).
Proof. intros Hc G. unfold replace. rewrite Hc, G. reflexivity. Qed.

(** C8.  When the text of a string after the substitution of all its
    placeholders is exactly null, the substitution returns the string
    of four characters, not the null value: [replace_variable] returns
    it, the member or item that held the string holds it afterwards,
    and so does the document at every path to such a string. *)
Theorem null_text_stays_string (overrides : dict) (s : string) :
  re_sub overrides s = Ok "null" ->
  replace_variable overrides (VString s) = Ok (VString "null")
  /\ replace_string overrides s = Ok (VString "null")
  /\ forall p doc doc',
       p <> [] ->
       replace_variables overrides doc = Ok doc' ->
       get_path p doc = Some (VString s) ->
       get_path p doc' = Some (VString "null").
Proof.
  intro E.
  assert (R : replace_string overrides s = Ok (VString "null")).
  { destruct (startswith marker s) eqn:M.
    - pose proof (re_sub_marker_head overrides s "null" M E). discriminate.
    - rewrite (replace_string_text overrides s "null" M E). reflexivity. }
  split; [ | split; [ exact R | ] ].
  - cbn [replace_variable]. rewrite E. reflexivity.
  - intros p doc doc' Hne Hrun Hget.
    destruct (replace_variables_path overrides p doc doc' s Hne Hrun Hget)
      as [val [Hval Hout]].
    rewrite R in Hval. injection Hval as <-. exact Hout.
Qed.
End Placeholders.

Lemma null_text_stays_string_witness :
  re_sub [("x", VInt 1)] "null" = Ok "null"
  /\ replace_variable [("x", VInt 1)] (VString "null") = Ok (VString "null")
  /\ replace_string [("x", VInt 1)] "null" = Ok (VString "null")
  /\ forall p doc doc',
       p <> [] ->
       replace_variables [("x", VInt 1)] doc = Ok doc' ->
       get_path p doc = Some (VString "null") ->
       get_path p doc' = Some (VString "null").
Proof.
  split; [ reflexivity | ].
  apply (null_text_stays_string [("x", VInt 1)] "null").
  reflexivity.
Defined.

Section Splicing.
Context `{PyRuntime}.
Context {laws : PyNumberLaws}.

Lemma not_int_underscore (s : string) :
  startswith "_" s = true -> py_int s = None.
Proof.
  intro U. destruct (py_int s) as [n | ] eqn:E; [ | reflexivity ].
  rewrite (int_no_underscore s n E) in U. discriminate.
Qed.

Lemma not_float_underscore (s : string) :
  startswith "_" s = true -> py_float s = None.
Proof.
  intro U. destruct (py_float s) as [f | ] eqn:E; [ | reflexivity ].
  rewrite (float_no_underscore s f E) in U. discriminate.
Qed.

Lemma coerce_result_marker (v : string) :
  coerce_result (marker ++ v) = VString (marker ++ v).
Proof.
  unfold coerce_result, marker. cbn [append].
  rewrite not_int_underscore, not_float_underscore by reflexivity.
  reflexivity.
Qed.

Lemma re_sub_group0 overrides v text :
  v <> EmptyString -> contains "}" v = false ->
  replace overrides v = Ok text ->
  re_sub overrides (group0 v) = Ok text.
Proof.
  intros Hne Hclose R. unfold re_sub.
  rewrite <- (append_nil_r (group0 v)), (scan_group0 v EmptyString Hne Hclose).
  cbn [scan scan_from render]. rewrite R. simpl.
  rewrite append_nil_r. reflexivity.
Qed.

(** Where the code does what C7 says.  For every string that is exactly
    one placeholder whose name has no marker text in it and does not hold
    both the letters if and the letters else, bound to an object or an
    array, the member or item that held the string holds the bound value
    itself after the substitution, at every path of the document. *)
Theorem whole_placeholder_splices_value (overrides : dict) (v : string) (c : Value) :
  v <> EmptyString ->
  contains "}" v = false ->
  contains marker v = false ->
  contains "if" v && contains "else" v = false ->
  dict_get v overrides = Some c ->
  is_container c = true ->
  replace_string overrides (group0 v) = Ok c
  /\ forall p doc doc',
       p <> [] ->
       replace_variables overrides doc = Ok doc' ->
       get_path p doc = Some (VString (group0 v)) ->
       get_path p doc' = Some c.
Proof.
  intros Hne Hclose Hmark Hcond G C.
  assert (R : replace_string overrides (group0 v) = Ok c).
  { rewrite (replace_string_text overrides (group0 v) (marker ++ v) eq_refl).
    - rewrite coerce_result_marker, startswith_app.
      unfold resolve_marker. rewrite (str_replace_marker v Hmark), G. reflexivity.
    - apply re_sub_group0; try assumption.
      apply (replace_container overrides v c); assumption. }
  split; [ exact R | ].
  intros p doc doc' Hp Hrun Hget.
  destruct (replace_variables_path overrides p doc doc' _ Hp Hrun Hget)
    as [val [Hval Hout]].
  rewrite R in Hval. injection Hval as <-. exact Hout.
Qed.
End Splicing.

Lemma whole_placeholder_splices_value_witness :
  replace_string [("obj", VObject [("a", VInt 1)])] (group0 "obj")
  = Ok (VObject [("a", VInt 1)])
  /\ forall p doc doc',
       p <> [] ->
       replace_variables [("obj", VObject [("a", VInt 1)])] doc = Ok doc' ->
       get_path p doc = Some (VString (group0 "obj")) ->
       get_path p doc' = Some (VObject [("a", VInt 1)]).
Proof.
  apply (@whole_placeholder_splices_value sample_runtime sample_laws
           [("obj", VObject [("a", VInt 1)])] "obj" (VObject [("a", VInt 1)]));
    try reflexivity.
  discriminate.
Defined.

(** C7.  Where the code misses what the claim says: the name
    [notify_else] is bound to an object and the field is exactly its
    placeholder, the case the marker path of line 264 is written for; but
    the name holds the letters if and the letters else, so the test of
    line 250 takes it for a conditional, whose evaluation does not see
    the bindings that are objects, and the run ends without a document. *)
Lemma name_with_if_and_else_is_evaluated :
  dict_get "notify_else" [("notify_else", VObject [("k", VInt 1)])]
  = Some (VObject [("k", VInt 1)])
  /\ validate_and_output_json "config.json"
       (VObject [("defaults", VArray [VObject [("notify_else",
                                                VObject [("k", VInt 1)])]]);
                 ("field", VString "${notify_else}")]) EmptyString []
     = Raise (SystemExit ("RVS conditional error" ++ newline ++ "Error: notify_else")).
Proof. split; vm_compute; reflexivity. Qed.

(** The marker text inside a name is removed with the marker at the head
    (line 199), and the name is then not found. *)
Remark marker_in_name_is_not_spliced :
  apply_runtime_overrides
    (VObject [("defaults", VArray [VObject [("a___TEMP_MARKER___b",
                                             VObject [("k", VInt 1)])]]);
              ("field", VString "${a___TEMP_MARKER___b}")]) EmptyString
  = Ok (VObject [("field", VNull)]).
Proof. vm_compute. reflexivity. Qed.

Section Embedded.
Context `{PyRuntime}.

(** The exact text when nothing before the placeholder opens a match *)
Lemma re_sub_container_between
    (overrides : dict) (pre v post post' : string) (c : Value) :
  contains "${" pre = false ->
  v <> EmptyString ->
  contains "}" v = false ->
  contains "if" v && contains "else" v = false ->
  dict_get v overrides = Some c ->
  is_container c = true ->
  re_sub overrides post = Ok post' ->
  re_sub overrides (pre ++ group0 v ++ post) = Ok (pre ++ marker ++ v ++ post').
Proof.
  intros Hpre Hne Hclose Hcond G C Hpost.
  unfold re_sub.
  rewrite (scan_literal_prefix pre (group0 v ++ post) Hpre eq_refl).
  rewrite (scan_group0 v post Hne Hclose), render_chars.
  cbn [render]. rewrite (replace_container overrides v c Hcond G C).
  unfold re_sub in Hpost. rewrite Hpost. cbn [bind].
  rewrite append_assoc. reflexivity.
Qed.

Lemma render_total overrides (segments : list segment) :
  (forall e, In (Placeholder e) segments -> exists t, replace overrides e = Ok t) ->
  exists text, render overrides segments = Ok text.
Proof.
  induction segments as [ | g rest IH ]; intro A; [ exists EmptyString; reflexivity | ].
  destruct IH as [tail Et]; [ intros e Hin; apply A; right; exact Hin | ].
  destruct g as [c | e]; cbn [render]; rewrite Et.
  - eexists. reflexivity.
  - destruct (A e (or_introl eq_refl)) as [t Rt]. rewrite Rt. eexists. reflexivity.
Qed.

(** C3, as the code has it.  For every string with a placeholder whose
    name is bound to an object or an array, whatever stands around it,
    the callback raises nothing and returns the marker followed by the
    name; when no other placeholder of the string raises, the substituted
    text holds that marker text and the member or item that held the
    string receives a value. *)
Theorem embedded_container_becomes_marker_text
    (overrides : dict) (value v : string) (c : Value) :
  In (Placeholder v) (scan value) ->
  contains "if" v && contains "else" v = false ->
  dict_get v overrides = Some c ->
  is_container c = true ->
  replace overrides v = Ok (marker ++ v)
  /\ ((forall e, In (Placeholder e) (scan value) -> e <> v ->
                 exists t, replace overrides e = Ok t) ->
      exists text out,
        re_sub overrides value = Ok text
        /\ contains (marker ++ v) text = true
        /\ replace_string overrides value = Ok out).
Proof.
  intros Hin Hcond G C.
  pose proof (replace_container overrides v c Hcond G C) as R.
  split; [ exact R | ].
  intro Others.
  destruct (render_total overrides (scan value)) as [text E].
  { intros e He. destruct (String.eqb e v) eqn:Eq.
    - apply String.eqb_eq in Eq. subst e. eexists. exact R.
    - apply String.eqb_neq in Eq. exact (Others e He Eq). }
  exists text.
  assert (Q : contains (marker ++ v) text = true)
    by exact (render_contains overrides (scan value) v _ text Hin R E).
  destruct (startswith marker value) eqn:M.
  - eexists. split; [ exact E | split; [ exact Q | ] ].
    unfold replace_string. rewrite M. reflexivity.
  - eexists. split; [ exact E | split; [ exact Q | ] ].
    exact (replace_string_text overrides value text M E).
Qed.
End Embedded.

Lemma embedded_container_becomes_marker_text_witness :
  replace [("v", VObject [("k", VInt 1)])] "v" = Ok (marker ++ "v")
  /\ ((forall e, In (Placeholder e) (scan "x-${v}-y") -> e <> "v" ->
                 exists t, replace [("v", VObject [("k", VInt 1)])] e = Ok t) ->
      exists text out,
        re_sub [("v", VObject [("k", VInt 1)])] "x-${v}-y" = Ok text
        /\ contains (marker ++ "v") text = true
        /\ replace_string [("v", VObject [("k", VInt 1)])] "x-${v}-y" = Ok out).
Proof.
  apply (@embedded_container_becomes_marker_text sample_runtime
           [("v", VObject [("k", VInt 1)])] "x-${v}-y" "v" (VObject [("k", VInt 1)])).
  - vm_compute. tauto.
  - reflexivity.
  - reflexivity.
  - reflexivity.
Defined.

(** C3 fails as stated: [v] is bound to an object and stands inside the
    larger string [x-${v}]; the run returns a document, with the marker
    text in the string. *)
Lemma embedded_container_run_succeeds :
  validate_and_output_json "config.json"
    (VObject [("defaults", VArray [VObject [("v", VObject [("k", VInt 1)])]]);
              ("a", VString "x-${v}")]) EmptyString []
  = Ok (VObject [("a", VString "x-___TEMP_MARKER___v")]).
Proof. vm_compute. reflexivity. Qed.

(** ** Strings without a placeholder and strings with a string-valued one *)

Lemma scan_no_dollar (pre k : string) :
  contains "$" pre = false -> scan (pre ++ k) = (chars pre ++ scan k)%list.
Proof.
  intro Hpre. unfold scan.
  induction pre as [ | a t IH ]; [ reflexivity | ].
  pose proof (contains_false_head _ _ Hpre) as Hd.
  apply contains_false_tail in Hpre.
  change (Ascii.eqb "$"%char a && true = false) in Hd.
  rewrite andb_true_r, Ascii.eqb_sym in Hd.
  cbn [append scan_from chars app].
  assert (N : placeholder_at (String a (t ++ k)) = None).
  { unfold placeholder_at. destruct (t ++ k); [ reflexivity | ].
    rewrite Hd. reflexivity. }
  rewrite N, (IH Hpre). reflexivity.
Qed.

Section Leaves.
Context `{PyRuntime}.

Lemma re_sub_marker_prefix overrides (s text : string) :
  startswith marker s = true -> re_sub overrides s = Ok text ->
  startswith marker text = true.
Proof.
  intros Hs E. apply startswith_inv in Hs as [r ->].
  unfold re_sub in E. rewrite (scan_no_dollar marker r eq_refl), render_chars in E.
  destruct (render overrides (scan r)) as [tail | e]; [ | discriminate ].
  cbn [bind] in E. injection E as <-. exact (startswith_app marker tail).
Qed.

Lemma replace_string_plain overrides (s : string) :
  has_placeholder s = false ->
  startswith marker s = false ->
  replace_string overrides s =
  Ok match coerce_result s with
     | VString t => if startswith marker t then resolve_marker overrides t
                    else VString t
     | v => v
     end.
Proof.
  intros P M. apply replace_string_text; [ exact M | apply re_sub_plain; exact P ].
Qed.

Context {laws : PyNumberLaws}.

Lemma mem_keywords (s : string) :
  mem_string s ["true"; "false"; "null"] = false ->
  String.eqb s "true" = false /\ String.eqb s "false" = false
  /\ String.eqb s "null" = false.
Proof.
  unfold mem_string. cbn [existsb]. intro E.
  apply orb_false_iff in E as [E1 E].
  apply orb_false_iff in E as [E2 E].
  apply orb_false_iff in E as [E3 _].
  repeat split; assumption.
Qed.

Lemma coerce_result_int (s : string) (n : Z) :
  py_int s = Some n -> coerce_result s = VInt n.
Proof.
  intro E. unfold coerce_result.
  rewrite (contains_false_head _ _ (int_no_quote s n E)).
  destruct (mem_keywords s (int_no_keyword s n E)) as [E1 [E2 E3]].
  rewrite E1, E2, E3, E. reflexivity.
Qed.

Lemma coerce_result_float (s : string) (f : float) :
  py_int s = None -> py_float s = Some f -> coerce_result s = VFloat f.
Proof.
  intros N E. unfold coerce_result.
  rewrite (contains_false_head _ _ (float_no_quote s f E)).
  destruct (mem_keywords s (float_no_keyword s f E)) as [E1 [E2 E3]].
  rewrite E1, E2, E3, N, E. reflexivity.
Qed.

(** A text with a double quote in it that is not wrapped in quotes is
    returned as a string *)
Lemma coerce_result_with_quote (text : string) :
  contains (String dquote EmptyString) text = true ->
  startswith (String dquote EmptyString) text
  && endswith (String dquote EmptyString) text = false ->
  coerce_result text = VString text.
Proof.
  intros Q W. unfold coerce_result. rewrite W.
  destruct (String.eqb text "true") eqn:E1;
    [ apply String.eqb_eq in E1; subst text; discriminate | ].
  destruct (String.eqb text "false") eqn:E2;
    [ apply String.eqb_eq in E2; subst text; discriminate | ].
  destruct (String.eqb text "null") eqn:E3;
    [ apply String.eqb_eq in E3; subst text; discriminate | ].
  cbn [orb].
  destruct (py_int text) as [n | ] eqn:I;
    [ rewrite (int_no_quote text n I) in Q; discriminate | ].
  destruct (py_float text) as [f | ] eqn:F;
    [ rewrite (float_no_quote text f F) in Q; discriminate | ].
  reflexivity.
Qed.

Lemma quote_head_not_marker (text : string) :
  startswith (String dquote EmptyString) text = true ->
  startswith marker text = false.
Proof.
  intro Q. apply startswith_inv in Q as [t ->]. reflexivity.
Qed.

(** C10, as the code has it.  For every string with a placeholder whose
    name is bound to a string [s], the substituted text holds [s]
    between two double quotes.  When that text does not both start and
    end with a double quote and does not start with the marker, the
    member or item that held the string holds the text, quotes included.
    When the text does start and end with a double quote, the member or
    item holds the text without its first and its last character,
    provided what is left does not start with the marker. *)
Theorem embedded_string_keeps_quotes
    (overrides : dict) (value text v s : string) :
  In (Placeholder v) (scan value) ->
  contains "if" v && contains "else" v = false ->
  dict_get v overrides = Some (VString s) ->
  re_sub overrides value = Ok text ->
  contains (quoted s) text = true
  /\ (startswith (String dquote EmptyString) text
      && endswith (String dquote EmptyString) text = false ->
      startswith marker text = false ->
      replace_string overrides value = Ok (VString text))
  /\ (startswith (String dquote EmptyString) text
      && endswith (String dquote EmptyString) text = true ->
      startswith marker (slice_1_m1 text) = false ->
      replace_string overrides value = Ok (VString (slice_1_m1 text))).
Proof.
  intros Hin Hcond G E.
  assert (Q : contains (quoted s) text = true).
  { apply (render_contains overrides (scan value) v (quoted s) text Hin);
      [ apply replace_string_value; assumption | exact E ]. }
  split; [ exact Q | split ].
  - intros W M.
    assert (Mv : startswith marker value = false).
    { destruct (startswith marker value) eqn:Mv; [ | reflexivity ].
      rewrite (re_sub_marker_prefix overrides value text Mv E) in M. discriminate. }
    rewrite (replace_string_text overrides value text Mv E).
    rewrite coerce_result_with_quote, M; [ reflexivity | | exact W ].
    apply (contains_shorter (String dquote EmptyString) (s ++ String dquote EmptyString)).
    exact Q.
  - intros W M.
    assert (Mt : startswith marker text = false).
    { apply quote_head_not_marker. apply andb_true_iff in W as [W _]. exact W. }
    assert (Mv : startswith marker value = false).
    { destruct (startswith marker value) eqn:Mv; [ | reflexivity ].
      rewrite (re_sub_marker_prefix overrides value text Mv E) in Mt. discriminate. }
    rewrite (replace_string_text overrides value text Mv E).
    unfold coerce_result. rewrite W, M. reflexivity.
Qed.

(** C9, as the code has it.  When the defaults list or the override
    string is not empty, every string of the document, at any path
    outside the defaults, is replaced where it stands according to its
    text after substitution, which is the string itself when it has no
    placeholder: by the text between the quotes when that text is wrapped
    in double quotes and what is between them does not start with the
    marker, by the boolean when the text is the word true or false, and
    by the number when [int] or [float] reads the text. *)
Theorem string_leaves_are_coerced
    (members : dict) (runtime_overrides : string) (out : Value)
    (p : list step) (s : string) :
  apply_runtime_overrides (VObject members) runtime_overrides = Ok out ->
  truthy (defaults_of members) = true \/ runtime_overrides <> EmptyString ->
  get_path p (VObject members) = Some (VString s) ->
  (forall rest, p <> Key "defaults" :: rest) ->
  exists table,
    resolve_overrides (defaults_of members) runtime_overrides = Ok table
    /\ (has_placeholder s = false -> re_sub table s = Ok s)
    /\ forall text,
         re_sub table s = Ok text ->
         (forall inner, text = quoted inner -> startswith marker inner = false ->
                        get_path p out = Some (VString inner))
         /\ (text = "true" -> get_path p out = Some (VBool true))
         /\ (text = "false" -> get_path p out = Some (VBool false))
         /\ (forall n, py_int text = Some n -> get_path p out = Some (VInt n))
         /\ (forall f, py_int text = None -> py_float text = Some f ->
                       get_path p out = Some (VFloat f)).
Proof.
  intros Hrun Hguard Hget Hp.
  unfold apply_runtime_overrides in Hrun. cbv zeta in Hrun.
  assert (Guard : negb (truthy (defaults_of members))
                  && negb (truthy (VString runtime_overrides)) = false).
  { destruct Hguard as [D | N]; [ rewrite D; reflexivity | ].
    apply String.eqb_neq in N. cbn [truthy]. rewrite N.
    apply andb_false_r. }
  rewrite Guard in Hrun.
  destruct (resolve_overrides (defaults_of members) runtime_overrides)
    as [table | e]; [ | discriminate ].
  cbn [bind] in Hrun.
  exists table. split; [ reflexivity | ].
  split; [ apply re_sub_plain | ].
  assert (Hget' : get_path p
                    (VObject (if truthy (defaults_of members)
                              then dict_pop "defaults" members else members))
                  = Some (VString s)).
  { destruct (truthy (defaults_of members)); [ | exact Hget ].
    destruct p as [ | [k | i] rest ]; try discriminate.
    cbn [get_path] in *. rewrite dict_get_pop_other; [ exact Hget | ].
    apply String.eqb_neq. intros ->. exact (Hp rest eq_refl). }
  assert (Hne : p <> []) by (destruct p; discriminate).
  destruct (replace_variables_path table p _ out s Hne Hrun Hget')
    as [val [Hval Hout]].
  rewrite Hout. clear Hrun Hget Hget' Hout.
  intros text E.
  destruct (startswith marker s) eqn:M.
  - pose proof (re_sub_marker_prefix table s text M E) as Mt.
    repeat split.
    + intros inner -> _. discriminate Mt.
    + intros ->. discriminate Mt.
    + intros ->. discriminate Mt.
    + intros n I.
      rewrite (startswith_marker_underscore _ (int_no_underscore text n I)) in Mt.
      discriminate Mt.
    + intros f _ F.
      rewrite (startswith_marker_underscore _ (float_no_underscore text f F)) in Mt.
      discriminate Mt.
  - rewrite (replace_string_text table s text M E) in Hval.
    repeat split.
    + intros inner -> Mi.
      rewrite coerce_result_quoted, Mi in Hval. injection Hval as <-. reflexivity.
    + intros ->. injection Hval as <-. reflexivity.
    + intros ->. injection Hval as <-. reflexivity.
    + intros n I.
      rewrite (coerce_result_int text n I) in Hval. injection Hval as <-. reflexivity.
    + intros f N F.
      rewrite (coerce_result_float text f N F) in Hval. injection Hval as <-.
      reflexivity.
Qed.
End Leaves.

Lemma embedded_string_keeps_quotes_witness :
  contains (quoted "x") (quoted "x" ++ "-" ++ quoted "y") = true
  /\ (startswith (String dquote EmptyString) (quoted "x" ++ "-" ++ quoted "y")
      && endswith (String dquote EmptyString) (quoted "x" ++ "-" ++ quoted "y") = false ->
      startswith marker (quoted "x" ++ "-" ++ quoted "y") = false ->
      replace_string [("a", VString "x"); ("b", VString "y")] "${a}-${b}"
      = Ok (VString (quoted "x" ++ "-" ++ quoted "y")))
  /\ (startswith (String dquote EmptyString) (quoted "x" ++ "-" ++ quoted "y")
      && endswith (String dquote EmptyString) (quoted "x" ++ "-" ++ quoted "y") = true ->
      startswith marker (slice_1_m1 (quoted "x" ++ "-" ++ quoted "y")) = false ->
      replace_string [("a", VString "x"); ("b", VString "y")] "${a}-${b}"
      = Ok (VString (slice_1_m1 (quoted "x" ++ "-" ++ quoted "y")))).
Proof.
  apply (@embedded_string_keeps_quotes sample_runtime sample_laws
           [("a", VString "x"); ("b", VString "y")] "${a}-${b}"
           (quoted "x" ++ "-" ++ quoted "y") "a" "x").
  - vm_compute. tauto.
  - reflexivity.
  - reflexivity.
  - reflexivity.
Defined.

(** C10 fails as stated: in [${a}-${b}] both names are bound to strings,
    the substituted text starts and ends with a double quote, the two are
    stripped, and the value of [a] is left without its opening quote. *)
Lemma two_string_placeholders_lose_quotes :
  In (Placeholder "a") (scan "${a}-${b}")
  /\ apply_runtime_overrides
       (VObject [("defaults", VArray [VObject [("a", VString "x"); ("b", VString "y")]]);
                 ("f", VString "${a}-${b}")]) EmptyString
     = Ok (VObject [("f", VString ("x" ++ quoted "-" ++ "y"))])
  /\ contains (quoted "x") ("x" ++ quoted "-" ++ "y") = false.
Proof.
  split; [ vm_compute; tauto | split; vm_compute; reflexivity ].
Qed.

Lemma string_leaves_are_coerced_witness :
  exists table,
    resolve_overrides (defaults_of [("a", VString "12")]) "y=1" = Ok table
    /\ (has_placeholder "12" = false -> re_sub table "12" = Ok "12")
    /\ forall text,
         re_sub table "12" = Ok text ->
         (forall inner, text = quoted inner -> startswith marker inner = false ->
                        get_path [Key "a"] (VObject [("a", VInt 12)])
                        = Some (VString inner))
         /\ (text = "true" ->
             get_path [Key "a"] (VObject [("a", VInt 12)]) = Some (VBool true))
         /\ (text = "false" ->
             get_path [Key "a"] (VObject [("a", VInt 12)]) = Some (VBool false))
         /\ (forall n, py_int text = Some n ->
                       get_path [Key "a"] (VObject [("a", VInt 12)]) = Some (VInt n))
         /\ (forall f, py_int text = None -> py_float text = Some f ->
                       get_path [Key "a"] (VObject [("a", VInt 12)]) = Some (VFloat f)).
Proof.
  apply (@string_leaves_are_coerced sample_runtime sample_laws
           [("a", VString "12")] "y=1" (VObject [("a", VInt 12)]) [Key "a"] "12").
  - vm_compute. reflexivity.
  - right. discriminate.
  - reflexivity.
  - intros rest. discriminate.
Defined.

(** C9 fails as stated: the string is wrapped in double quotes, and with
    its quotes stripped it starts with the marker, so the member becomes
    the binding of the rest of the text, here null. *)
Lemma quoted_marker_text_is_resolved :
  has_placeholder (quoted "___TEMP_MARKER___x") = false
  /\ apply_runtime_overrides
       (VObject [("a", VString (quoted "___TEMP_MARKER___x"))]) "y=1"
     = Ok (VObject [("a", VNull)]).
Proof. split; vm_compute; reflexivity. Qed.

(** ** The round trip *)

Lemma clean_not_none v : clean v = true -> is_none v = false.
Proof. destruct v; [ discriminate | reflexivity .. ]. Qed.

Lemma clean_object members :
  clean (VObject members) = true ->
  members <> [] /\ disabled_flag members = false
  /\ Forall (fun kv => clean (snd kv) = true) members.
Proof.
  cbn [clean]. fold (disabled_flag members). intro C.
  apply andb_true_iff in C as [C A]. apply andb_true_iff in C as [N D].
  split; [ destruct members; [ discriminate N | discriminate ] | ].
  split; [ apply negb_true_iff; exact D | ].
  clear N D. induction members as [ | [k x] rest IH ]; constructor.
  - apply andb_true_iff in A as [A _]. exact A.
  - apply IH. apply andb_true_iff in A as [_ A]. exact A.
Qed.

Lemma clean_array items :
  clean (VArray items) = true ->
  items <> [] /\ Forall (fun x => clean x = true) items.
Proof.
  cbn [clean]. intro C. apply andb_true_iff in C as [N A].
  split; [ destruct items; [ discriminate N | discriminate ] | ].
  clear N. induction items as [ | x rest IH ]; constructor.
  - apply andb_true_iff in A as [A _]. exact A.
  - apply IH. apply andb_true_iff in A as [_ A]. exact A.
Qed.

(** The pruning pass returns a clean value as it is *)
Lemma remove_disabled_clean v :
  clean v = true -> remove_disabled_elements v = v.
Proof.
  induction v as [ | b | n | f | s | members IH | items IH ] using Value_ind;
    intro C; try reflexivity.
  - apply clean_object in C as [N [D A]].
    rewrite remove_disabled_object, D.
    assert (P : prune_members members = members).
    { clear N D. induction members as [ | [k x] rest IHrest ]; [ reflexivity | ].
      inversion IH as [ | ? ? Hx Hrest ]; subst.
      inversion A as [ | ? ? Cx Crest ]; subst. simpl in Hx, Cx.
      cbn [prune_members]. fold prune_members.
      rewrite (Hx Cx), (clean_not_none x Cx), (IHrest Hrest Crest). reflexivity. }
    rewrite P. destruct members; [ contradiction | reflexivity ].
  - apply clean_array in C as [N A].
    rewrite remove_disabled_array.
    assert (P : prune_items items = items).
    { clear N. induction items as [ | x rest IHrest ]; [ reflexivity | ].
      inversion IH as [ | ? ? Hx Hrest ]; subst.
      inversion A as [ | ? ? Cx Crest ]; subst.
      cbn [prune_items]. fold prune_items.
      rewrite (Hx Cx), (clean_not_none x Cx), (IHrest Hrest Crest). reflexivity. }
    rewrite P. destruct items; [ contradiction | reflexivity ].
Qed.

Section RoundTrip.
Context `{PyRuntime}.

Lemma plain_members_forall members :
  plain (VObject members) = true -> Forall (fun kv => plain (snd kv) = true) members.
Proof.
  cbn [plain]. induction members as [ | [k x] rest IH ]; intro A; constructor.
  - apply andb_true_iff in A as [A _]. exact A.
  - apply IH. apply andb_true_iff in A as [_ A]. exact A.
Qed.

Lemma plain_items_forall items :
  plain (VArray items) = true -> Forall (fun x => plain x = true) items.
Proof.
  cbn [plain]. induction items as [ | x rest IH ]; intro A; constructor.
  - apply andb_true_iff in A as [A _]. exact A.
  - apply IH. apply andb_true_iff in A as [_ A]. exact A.
Qed.

Lemma replace_string_plain_string overrides s :
  plain_string s = true -> replace_string overrides s = Ok (VString s).
Proof.
  unfold plain_string. intro P.
  apply andb_true_iff in P as [P C]. apply andb_true_iff in P as [P M].
  apply negb_true_iff in P. apply negb_true_iff in M.
  rewrite (replace_string_plain overrides s P M).
  destruct (coerce_result s) as [ | | | | t | | ]; try discriminate.
  apply String.eqb_eq in C. subst t. rewrite M. reflexivity.
Qed.

(** The substitution pass returns a plain value as it is *)
Lemma replace_variables_plain overrides v :
  plain v = true ->
  replace_member overrides v = Ok v /\ replace_variables overrides v = Ok v.
Proof.
  induction v as [ | b | n | f | s | members IH | items IH ] using Value_ind;
    intro P; try (split; reflexivity).
  - split; [ apply replace_string_plain_string; exact P | reflexivity ].
  - apply plain_members_forall in P.
    assert (E : replace_members overrides members = Ok members).
    { induction members as [ | [k x] rest IHrest ]; [ reflexivity | ].
      inversion IH as [ | ? ? Hx Hrest ]; subst.
      inversion P as [ | ? ? Px Prest ]; subst. simpl in Hx, Px.
      cbn [replace_members]. fold (replace_members overrides).
      rewrite (proj1 (Hx Px)), (IHrest Hrest Prest). reflexivity. }
    assert (R : replace_variables overrides (VObject members) = Ok (VObject members)).
    { rewrite replace_variables_object, E. reflexivity. }
    split; exact R.
  - apply plain_items_forall in P.
    assert (E : replace_items overrides items = Ok items).
    { induction items as [ | x rest IHrest ]; [ reflexivity | ].
      inversion IH as [ | ? ? Hx Hrest ]; subst.
      inversion P as [ | ? ? Px Prest ]; subst.
      cbn [replace_items]. fold (replace_items overrides).
      rewrite (proj1 (Hx Px)), (IHrest Hrest Prest). reflexivity. }
    assert (R : replace_variables overrides (VArray items) = Ok (VArray items)).
    { rewrite replace_variables_array, E. reflexivity. }
    split; exact R.
Qed.

(** C5, as the code has it.  A document whose root is not an object is
    refused: line 67 raises AttributeError whatever the override string.
    For every document whose root is an object without a top-level
    defaults key, that the pruning pass has nothing to do on (no null,
    no empty object or array, no [disabled] member equal to [True]) and
    that passes the schemas, the run returns the document unchanged when
    the override string is empty, and also when the override string
    parses and every string of the document is plain: without
    placeholder, not starting with the marker, and a text that lines
    277-295 return as the same string. *)
Theorem clean_plain_document_unchanged
    (file_path : string) (data : Value) (runtime_overrides : string)
    (schemas : list (Value -> result unit)) :
  ((forall members, data <> VObject members) ->
   validate_and_output_json file_path data runtime_overrides schemas
   = Raise (AttributeError "object has no attribute 'get'"))
  /\ (forall members,
        data = VObject members ->
        dict_get "defaults" members = None ->
        clean data = true ->
        runtime_overrides = EmptyString
        \/ (plain data = true
            /\ exists table, parse_overrides runtime_overrides = Ok table) ->
        validate_all schemas data = Ok tt ->
        validate_and_output_json file_path data runtime_overrides schemas = Ok data).
Proof.
  split.
  - intro N. destruct data as [ | | | | | members | ]; try reflexivity.
    exfalso. exact (N members eq_refl).
  - intros members -> Hdef Hclean Hcase Hvalid.
    assert (A : apply_runtime_overrides (VObject members) runtime_overrides
                = Ok (VObject members)).
    { unfold apply_runtime_overrides, defaults_of. rewrite Hdef. cbv zeta.
      cbn [truthy negb andb].
      destruct (String.eqb runtime_overrides EmptyString) eqn:E; [ reflexivity | ].
      destruct Hcase as [-> | [Hplain [table Hparse]]]; [ discriminate | ].
      cbn [negb]. unfold resolve_overrides. rewrite Hparse. cbn [bind merge_defaults
        merge_defaults_list].
      exact (proj2 (replace_variables_plain table (VObject members) Hplain)). }
    unfold validate_and_output_json. rewrite A. cbn [bind]. rewrite Hvalid.
    cbn [bind]. rewrite (remove_disabled_clean _ Hclean). reflexivity.
Qed.
End RoundTrip.

Lemma clean_plain_document_unchanged_witness :
  validate_and_output_json "config.json" (VArray [VInt 1]) "env=dev" []
  = Raise (AttributeError "object has no attribute 'get'")
  /\ validate_and_output_json "config.json"
       (VObject [("name", VString "build"); ("steps", VArray [VString "lint"; VInt 2])])
       "env=dev" []
     = Ok (VObject [("name", VString "build");
                    ("steps", VArray [VString "lint"; VInt 2])]).
Proof.
  split.
  - apply (proj1 (@clean_plain_document_unchanged sample_runtime "config.json"
                    (VArray [VInt 1]) "env=dev" [])).
    intros members. discriminate.
  - apply (proj2 (@clean_plain_document_unchanged sample_runtime "config.json"
                    (VObject [("name", VString "build");
                              ("steps", VArray [VString "lint"; VInt 2])])
                    "env=dev" [])
             [("name", VString "build"); ("steps", VArray [VString "lint"; VInt 2])]).
    + reflexivity.
    + reflexivity.
    + reflexivity.
    + right. split; [ vm_compute; reflexivity | ].
      exists [("env", VString "dev")]. reflexivity.
    + reflexivity.
Defined.

(** C5 fails as stated: the document has no defaults, no placeholder and
    no disabled flag, and with a non-empty override string its string
    [12] comes out as the number 12. *)
Lemma digit_string_becomes_number :
  dict_get "defaults" [("a", VString "12")] = None
  /\ has_placeholder "12" = false
  /\ validate_and_output_json "config.json" (VObject [("a", VString "12")]) "y=1" []
     = Ok (VObject [("a", VInt 12)])
  /\ VObject [("a", VInt 12)] <> VObject [("a", VString "12")].
Proof.
  repeat split; try (vm_compute; reflexivity). discriminate.
Qed.

(* ================================================================= *)
(** * Further properties of the code *)

(** ** What the pruning pass returns *)

Lemma clean_object_intro members :
  members <> [] -> disabled_flag members = false ->
  Forall (fun kv => clean (snd kv) = true) members ->
  clean (VObject members) = true.
Proof.
  intros N D A. cbn [clean]. fold (disabled_flag members). rewrite D.
  replace (match members with [] => false | _ :: _ => true end) with true
    by (destruct members; [ contradiction | reflexivity ]).
  cbn [andb negb]. clear N D.
  induction A as [ | [k x] l Hx _ IH ]; [ reflexivity | ].
  simpl in Hx. rewrite Hx. exact IH.
Qed.

Lemma clean_array_intro items :
  items <> [] -> Forall (fun x => clean x = true) items ->
  clean (VArray items) = true.
Proof.
  intros N A. cbn [clean].
  replace (match items with [] => false | _ :: _ => true end) with true
    by (destruct items; [ contradiction | reflexivity ]).
  cbn [andb]. clear N.
  induction A as [ | x l Hx _ IH ]; [ reflexivity | ].
  rewrite Hx. exact IH.
Qed.

Lemma prune_members_clean members :
  Forall (fun kv => wf_value (snd kv) = true ->
                    is_none (remove_disabled_elements (snd kv)) = false ->
                    clean (remove_disabled_elements (snd kv)) = true) members ->
  Forall (fun kv => wf_value (snd kv) = true) members ->
  Forall (fun kv => clean (snd kv) = true) (prune_members members).
Proof.
  induction 1 as [ | [k x] rest Hx _ IH ]; intro W; [ constructor | ].
  inversion W as [ | ? ? Wx Wrest ]; subst. simpl in Hx, Wx.
  cbn [prune_members]. fold prune_members.
  destruct (is_none (remove_disabled_elements x)) eqn:N; [ exact (IH Wrest) | ].
  constructor; [ exact (Hx Wx eq_refl) | exact (IH Wrest) ].
Qed.

Lemma prune_items_clean items :
  Forall (fun x => wf_value x = true ->
                   is_none (remove_disabled_elements x) = false ->
                   clean (remove_disabled_elements x) = true) items ->
  Forall (fun x => wf_value x = true) items ->
  Forall (fun x => clean x = true) (prune_items items).
Proof.
  induction 1 as [ | x rest Hx _ IH ]; intro W; [ constructor | ].
  inversion W as [ | ? ? Wx Wrest ]; subst.
  cbn [prune_items]. fold prune_items.
  destruct (is_none (remove_disabled_elements x)) eqn:N; [ exact (IH Wrest) | ].
  constructor; [ exact (Hx Wx eq_refl) | exact (IH Wrest) ].
Qed.

(** X1.  What the pruning pass returns for a tree of dicts is None, or a
    tree with no null in it, no empty object or array, and no object
    whose [disabled] member equals True. *)
Theorem pruned_is_none_or_clean (v : Value) :
  wf_value v = true ->
  is_none (remove_disabled_elements v) = false ->
  clean (remove_disabled_elements v) = true.
Proof.
  induction v as [ | b | n | f | s | members IH | items IH ] using Value_ind;
    intros W N; try reflexivity.
  - discriminate N.
  - apply wf_object in W as [U W].
    rewrite remove_disabled_object in *.
    destruct (disabled_flag members) eqn:D; [ discriminate N | ].
    pose proof (prune_members_clean members IH W) as A.
    pose proof (disabled_flag_pruned members U D) as D'.
    destruct (prune_members members) as [ | m rest ] eqn:P; [ discriminate N | ].
    apply clean_object_intro; [ discriminate | exact D' | exact A ].
  - apply wf_array in W.
    rewrite remove_disabled_array in *.
    pose proof (prune_items_clean items IH W) as A.
    destruct (prune_items items) as [ | m rest ] eqn:P; [ discriminate N | ].
    apply clean_array_intro; [ discriminate | exact A ].
Qed.

Lemma pruned_is_none_or_clean_witness :
  clean (remove_disabled_elements
           (VObject [("a", VObject [("disabled", VInt 1); ("x", VInt 2)]);
                     ("b", VArray [VNull; VString "kept"; VObject []])])) = true.
Proof.
  apply (pruned_is_none_or_clean
           (VObject [("a", VObject [("disabled", VInt 1); ("x", VInt 2)]);
                     ("b", VArray [VNull; VString "kept"; VObject []])]));
    reflexivity.
Defined.

Lemma dict_has_prune k members :
  dict_has k (prune_members members) = true -> dict_has k members = true.
Proof.
  unfold dict_has. intro E.
  destruct (dict_get k members) eqn:G; [ reflexivity | ].
  rewrite (dict_get_prune_absent k members G) in E. discriminate.
Qed.

Lemma unique_keys_prune members :
  unique_keys members = true -> unique_keys (prune_members members) = true.
Proof.
  induction members as [ | [k x] rest IH ]; [ reflexivity | ].
  cbn [unique_keys prune_members]. fold prune_members. intro U.
  apply andb_true_iff in U as [F U].
  destruct (is_none (remove_disabled_elements x)); [ exact (IH U) | ].
  cbn [unique_keys]. rewrite (IH U), andb_true_r.
  apply negb_true_iff. apply negb_true_iff in F.
  destruct (dict_has k (prune_members rest)) eqn:E; [ | reflexivity ].
  rewrite (dict_has_prune k rest E) in F. discriminate.
Qed.

Lemma wf_object_intro members :
  unique_keys members = true ->
  Forall (fun kv => wf_value (snd kv) = true) members ->
  wf_value (VObject members) = true.
Proof.
  intros U A. cbn [wf_value]. rewrite U. cbn [andb]. clear U.
  induction A as [ | [k x] l Hx _ IH ]; [ reflexivity | ].
  simpl in Hx. rewrite Hx. exact IH.
Qed.

Lemma wf_array_intro items :
  Forall (fun x => wf_value x = true) items -> wf_value (VArray items) = true.
Proof.
  intro A. cbn [wf_value].
  induction A as [ | x l Hx _ IH ]; [ reflexivity | ].
  rewrite Hx. exact IH.
Qed.

(** X2.  The pruning pass keeps the invariant of dicts: when no object of
    the input repeats a key, no object of the output does. *)
Theorem pruned_is_wf (v : Value) :
  wf_value v = true -> wf_value (remove_disabled_elements v) = true.
Proof.
  induction v as [ | b | n | f | s | members IH | items IH ] using Value_ind;
    intro W; try reflexivity.
  - apply wf_object in W as [U W].
    rewrite remove_disabled_object.
    destruct (disabled_flag members); [ reflexivity | ].
    assert (A : Forall (fun kv => wf_value (snd kv) = true) (prune_members members)).
    { clear U. induction IH as [ | [k x] rest Hx _ IHrest ]; [ constructor | ].
      inversion W as [ | ? ? Wx Wrest ]; subst. simpl in Hx, Wx.
      cbn [prune_members]. fold prune_members.
      destruct (is_none (remove_disabled_elements x)); [ exact (IHrest Wrest) | ].
      constructor; [ exact (Hx Wx) | exact (IHrest Wrest) ]. }
    pose proof (unique_keys_prune members U) as U'.
    destruct (prune_members members) as [ | m rest ]; [ reflexivity | ].
    apply wf_object_intro; assumption.
  - apply wf_array in W.
    rewrite remove_disabled_array.
    assert (A : Forall (fun x => wf_value x = true) (prune_items items)).
    { induction IH as [ | x rest Hx _ IHrest ]; [ constructor | ].
      inversion W as [ | ? ? Wx Wrest ]; subst.
      cbn [prune_items]. fold prune_items.
      destruct (is_none (remove_disabled_elements x)); [ exact (IHrest Wrest) | ].
      constructor; [ exact (Hx Wx) | exact (IHrest Wrest) ]. }
    destruct (prune_items items) as [ | m rest ]; [ reflexivity | ].
    apply wf_array_intro; assumption.
Qed.

Lemma pruned_is_wf_witness :
  wf_value (remove_disabled_elements
              (VObject [("a", VObject [("disabled", VBool true)]);
                        ("b", VArray [VInt 1; VObject [("c", VNull)]])])) = true.
Proof.
  apply (pruned_is_wf
           (VObject [("a", VObject [("disabled", VBool true)]);
                     ("b", VArray [VInt 1; VObject [("c", VNull)]])])).
  reflexivity.
Defined.

(** ** The override string *)



Lemma contains_char_cons (c a : ascii) (t : string) :
  contains (String c EmptyString) (String a t)
  = Ascii.eqb c a || contains (String c EmptyString) t.
Proof. cbn [contains startswith]. rewrite andb_true_r. reflexivity. Qed.

Lemma contains_char_app (c : ascii) (a b : string) :
  contains (String c EmptyString) (a ++ b)
  = contains (String c EmptyString) a || contains (String c EmptyString) b.
Proof.
  induction a as [ | x t IH ].
  - destruct b; reflexivity.
  - cbn [append]. rewrite !contains_char_cons, IH. apply orb_assoc.
Qed.

Lemma split_no_sep (sep : ascii) (s : string) :
  contains (String sep EmptyString) s = false -> split sep s = [s].
Proof.
  induction s as [ | a t IH ]; [ reflexivity | ].
  rewrite contains_char_cons. intro E. apply orb_false_iff in E as [Ea Et].
  cbn [split]. rewrite Ascii.eqb_sym, Ea, (IH Et). reflexivity.
Qed.


Lemma split_once_app (sep : ascii) (k v : string) :
  contains (String sep EmptyString) k = false ->
  split_once sep (k ++ String sep v) = Some (k, v).
Proof.
  induction k as [ | a t IH ]; cbn [append split_once].
  - rewrite Ascii.eqb_refl. reflexivity.
  - rewrite contains_char_cons. intro E. apply orb_false_iff in E as [Ea Et].
    rewrite Ascii.eqb_sym, Ea, (IH Et). reflexivity.
Qed.

Lemma truthy_app_cons (a : string) (c : ascii) (b : string) :
  truthy (VString (a ++ String c b)) = true.
Proof. destruct a; reflexivity. Qed.

Section Overrides.
Context `{PyRuntime}.




(** X4.  The key of a pair is the text before its first equals sign and
    the value all the text after it, further equals signs included: an
    override string that is one such pair gives the table with that one
    binding. *)
Theorem single_pair_parses (key value : string) (v : Value) :
  contains "=" key = false ->
  contains ";" key = false ->
  contains ";" value = false ->
  coerce_override value = Ok v ->
  parse_overrides (key ++ "=" ++ value) = Ok [(key, v)].
Proof.
  intros Hk Hsk Hsv C. unfold parse_overrides.
  change (key ++ "=" ++ value) with (key ++ String "="%char value).
  rewrite truthy_app_cons, split_no_sep.
  - cbn [parse_pairs]. rewrite (split_once_app _ key value Hk), C. reflexivity.
  - rewrite contains_char_app, contains_char_cons, Hsk, Hsv. reflexivity.
Qed.

End Overrides.


Lemma single_pair_parses_witness :
  parse_overrides ("expr" ++ "=" ++ "a=b") = Ok [("expr", VString "a=b")].
Proof.
  apply (@single_pair_parses sample_runtime "expr" "a=b" (VString "a=b")); reflexivity.
Defined.


Lemma lower_head (value : string) (x y : ascii) (r : string) :
  lower value = String x r -> lower_ascii y <> x ->
  startswith (String y EmptyString) value = false.
Proof.
  destruct value as [ | a t ]; [ discriminate | ].
  cbn [lower startswith]. intros E N. injection E as Ea _.
  destruct (Ascii.eqb y a) eqn:Eq; [ | reflexivity ].
  apply Ascii.eqb_eq in Eq. subst a. contradiction.
Qed.

Lemma rstrip_fixed (c : ascii) (s : string) :
  endswith (String c EmptyString) s = false -> rstrip c s = s.
Proof.
  induction s as [ | a t IH ]; [ reflexivity | ].
  cbn [endswith]. intro E. apply orb_false_iff in E as [Ea Et].
  cbn [rstrip]. rewrite (IH Et).
  destruct t as [ | b t' ]; [ | reflexivity ].
  cbn [String.eqb] in Ea.
  destruct (Ascii.eqb c a) eqn:Eca; [ discriminate | ].
  rewrite Ascii.eqb_sym, Eca. reflexivity.
Qed.

Lemma rstrip_app_char (c : ascii) (s : string) :
  rstrip c (s ++ String c EmptyString) = rstrip c s.
Proof.
  induction s as [ | a t IH ].
  - cbn [append rstrip]. rewrite Ascii.eqb_refl. reflexivity.
  - cbn [append rstrip]. rewrite IH. reflexivity.
Qed.

Lemma strip_quoted (inner : string) :
  startswith (String dquote EmptyString) inner = false ->
  endswith (String dquote EmptyString) inner = false ->
  strip dquote (quoted inner) = inner.
Proof.
  intros S E. unfold strip, quoted. cbn [lstrip]. rewrite Ascii.eqb_refl.
  destruct inner as [ | a t ]; [ reflexivity | ].
  cbn [startswith] in S. rewrite andb_true_r in S.
  cbn [append lstrip]. rewrite Ascii.eqb_sym, S.
  change (String a (t ++ String dquote EmptyString))
    with (String a t ++ String dquote EmptyString).
  rewrite rstrip_app_char. apply rstrip_fixed. exact E.
Qed.

Lemma dict_has_set (k k' : string) (v : Value) (d : dict) :
  dict_has k (dict_set k' v d) = String.eqb k k' || dict_has k d.
Proof.
  unfold dict_has. rewrite dict_get_set.
  destruct (String.eqb k k'); reflexivity.
Qed.

Lemma unique_keys_set (k : string) (v : Value) (d : dict) :
  unique_keys d = true -> unique_keys (dict_set k v d) = true.
Proof.
  induction d as [ | [k' v'] rest IH ]; [ reflexivity | ].
  cbn [unique_keys dict_set]. intro U. apply andb_true_iff in U as [F U].
  destruct (String.eqb k k') eqn:E.
  - cbn [unique_keys]. rewrite F, U. reflexivity.
  - cbn [unique_keys]. rewrite (IH U), andb_true_r, dict_has_set.
    rewrite String.eqb_sym, E. exact F.
Qed.

Lemma dict_get_filter (keep : Value -> bool) (k : string) (d : dict) :
  unique_keys d = true ->
  dict_get k (filter (fun kv => keep (snd kv)) d) =
  match dict_get k d with
  | Some v => if keep v then Some v else None
  | None => None
  end.
Proof.
  induction d as [ | [k' v] rest IH ]; [ reflexivity | ].
  cbn [unique_keys filter dict_get snd]. intro U.
  apply andb_true_iff in U as [F U].
  destruct (String.eqb k k') eqn:E.
  - apply String.eqb_eq in E. subst k'.
    destruct (keep v); cbn [dict_get]; [ rewrite String.eqb_refl; reflexivity | ].
    rewrite (IH U). unfold dict_has in F.
    destruct (dict_get k rest); [ discriminate | reflexivity ].
  - destruct (keep v); cbn [dict_get]; [ rewrite E | ]; exact (IH U).
Qed.

Section Table.
Context `{PyRuntime}.

(** X6.  The words true, false, null and none are recognised in any
    mixture of upper and lower case: such an override value becomes the
    boolean, or None, and is not read as a number or kept as a string. *)
Theorem keyword_override_any_case (value : string) :
  In (lower value) ["true"; "false"; "null"; "none"] ->
  coerce_override value =
  Ok (if String.eqb (lower value) "true" then VBool true
      else if String.eqb (lower value) "false" then VBool false
      else VNull).
Proof.
  intro K.
  assert (B : startswith "{" value = false /\ startswith "[" value = false).
  { destruct K as [K | [K | [K | [K | []]]]]; symmetry in K;
      split; apply (lower_head value _ _ _ K); discriminate. }
  destruct B as [B1 B2]. unfold coerce_override. rewrite B1, B2. cbn [andb].
  destruct K as [K | [K | [K | [K | []]]]]; rewrite <- K; reflexivity.
Qed.

Lemma unique_keys_merge_default (items : list (string * Value)) (overrides : dict) :
  unique_keys overrides = true -> unique_keys (merge_default items overrides) = true.
Proof.
  revert overrides. induction items as [ | [key value] rest IH ]; intros o U;
    [ exact U | ].
  cbn [merge_default]. apply IH.
  destruct (dict_has key o); [ exact U | apply unique_keys_set; exact U ].
Qed.

Lemma unique_keys_parse_pairs (pairs : list string) :
  forall overrides table,
    unique_keys overrides = true ->
    parse_pairs pairs overrides = Ok table ->
    unique_keys table = true.
Proof.
  induction pairs as [ | p rest IH ]; intros o table U E.
  - injection E as <-. exact U.
  - cbn [parse_pairs] in E.
    destruct (split_once "="%char p) as [[key value] | ]; [ | discriminate ].
    destruct (coerce_override value) as [v | e]; [ | discriminate ].
    cbn [bind] in E. apply (IH _ _ (unique_keys_set key v o U) E).
Qed.

Lemma unique_keys_merge_defaults_list (defaults : list Value) :
  forall overrides table,
    unique_keys overrides = true ->
    merge_defaults_list defaults overrides = Ok table ->
    unique_keys table = true.
Proof.
  induction defaults as [ | d rest IH ]; intros o table U E.
  - injection E as <-. exact U.
  - destruct d; try discriminate. cbn [merge_defaults_list] in E.
    apply (IH _ _ (unique_keys_merge_default members o U) E).
Qed.

(** X7.  The table of bindings never holds a key twice, whatever the
    override string repeats and whatever the defaults repeat; and the
    context a conditional is evaluated in has, for every name, the
    binding of the table when it is not a dict or a list, and no binding
    otherwise. *)
Theorem binding_table_has_unique_keys
    (defaults : Value) (runtime_overrides : string) (table : dict) :
  resolve_overrides defaults runtime_overrides = Ok table ->
  unique_keys table = true
  /\ forall k,
       dict_get k (filter (fun kv => negb (is_container (snd kv))) table) =
       match dict_get k table with
       | Some v => if is_container v then None else Some v
       | None => None
       end.
Proof.
  intro E.
  assert (U : unique_keys table = true).
  { unfold resolve_overrides in E.
    destruct (parse_overrides runtime_overrides) as [o | e] eqn:P; [ | discriminate ].
    cbn [bind] in E.
    assert (Uo : unique_keys o = true).
    { unfold parse_overrides in P.
      destruct (truthy (VString runtime_overrides)).
      - apply (unique_keys_parse_pairs _ [] o eq_refl P).
      - injection P as <-. reflexivity. }
    destruct defaults as [ | | | | s | members | items ]; try discriminate.
    - destruct s; [ injection E as <-; exact Uo | discriminate ].
    - destruct members; [ injection E as <-; exact Uo | discriminate ].
    - apply (unique_keys_merge_defaults_list items o table Uo E). }
  split; [ exact U | ].
  intro k.
  rewrite (dict_get_filter (fun v => negb (is_container v)) k table U).
  destruct (dict_get k table) as [v | ]; [ | reflexivity ].
  destruct (is_container v); reflexivity.
Qed.

Lemma merge_defaults_list_not_objects (items : list Value) :
  (forall ds, items <> map VObject ds) ->
  forall overrides, exists e, merge_defaults_list items overrides = Raise e.
Proof.
  induction items as [ | x rest IH ]; intros N o.
  - exfalso. apply (N []). reflexivity.
  - destruct x as [ | | | | | ms | ]; try (eexists; reflexivity).
    cbn [merge_defaults_list]. apply IH.
    intros ds E. apply (N (ms :: ds)). rewrite E. reflexivity.
Qed.

(** X8.  A document whose [defaults] member is truthy and is not a list
    of objects is never processed: whatever the override string, the
    merge of lines 111-114 (or the parsing before it) raises. *)
Theorem malformed_defaults_fail
    (members : dict) (runtime_overrides : string) (d : Value) :
  dict_get "defaults" members = Some d ->
  truthy d = true ->
  (forall ds, d <> VArray (map VObject ds)) ->
  exists e, apply_runtime_overrides (VObject members) runtime_overrides = Raise e.
Proof.
  intros G T N. unfold apply_runtime_overrides, defaults_of. rewrite G. cbv zeta.
  rewrite T. cbn [negb andb]. unfold resolve_overrides.
  destruct (parse_overrides runtime_overrides) as [o | e]; [ | eexists; reflexivity ].
  cbn [bind].
  assert (M : exists e, merge_defaults d o = Raise e).
  { destruct d as [ | | | | s | ms | items ]; try (eexists; reflexivity).
    - destruct s; [ discriminate T | eexists; reflexivity ].
    - destruct ms; [ discriminate T | eexists; reflexivity ].
    - apply merge_defaults_list_not_objects.
      intros ds E. apply (N ds). rewrite E. reflexivity. }
  destruct M as [e M]. rewrite M. exists e. reflexivity.
Qed.
End Table.

Lemma keyword_override_any_case_witness :
  coerce_override "NoNe" =
  Ok (if String.eqb (lower "NoNe") "true" then VBool true
      else if String.eqb (lower "NoNe") "false" then VBool false
      else VNull).
Proof.
  apply (@keyword_override_any_case sample_runtime "NoNe").
  vm_compute. tauto.
Defined.

Lemma binding_table_has_unique_keys_witness :
  unique_keys [("a", VInt 2); ("o", VObject [("k", VInt 1)])] = true
  /\ forall k,
       dict_get k (filter (fun kv => negb (is_container (snd kv)))
                     [("a", VInt 2); ("o", VObject [("k", VInt 1)])]) =
       match dict_get k [("a", VInt 2); ("o", VObject [("k", VInt 1)])] with
       | Some v => if is_container v then None else Some v
       | None => None
       end.
Proof.
  apply (@binding_table_has_unique_keys sample_runtime
           (VArray [VObject [("a", VInt 5); ("o", VObject [("k", VInt 1)])]])
           "a=1;a=2" [("a", VInt 2); ("o", VObject [("k", VInt 1)])]).
  vm_compute. reflexivity.
Defined.

Lemma malformed_defaults_fail_witness :
  exists e,
    apply_runtime_overrides
      (VObject [("defaults", VObject [("env", VString "prod")]);
                ("a", VString "${env}")]) "x=1" = Raise e.
Proof.
  apply (@malformed_defaults_fail sample_runtime
           [("defaults", VObject [("env", VString "prod")]); ("a", VString "${env}")]
           "x=1" (VObject [("env", VString "prod")])).
  - reflexivity.
  - reflexivity.
  - intros ds. discriminate.
Defined.

Section QuotedOverride.
Context `{PyRuntime}.
Context {laws : PyNumberLaws}.

(** X9.  An override value written between double quotes is kept as a
    string and loses the quotes, also when the text between them reads as
    a number or as one of the keywords; stated for a text that does not
    itself start or end with a double quote. *)
Theorem quoted_override_is_string (inner : string) :
  startswith (String dquote EmptyString) inner = false ->
  endswith (String dquote EmptyString) inner = false ->
  coerce_override (quoted inner) = Ok (VString inner).
Proof.
  intros S E. unfold coerce_override.
  assert (Q : contains (String dquote EmptyString) (quoted inner) = true).
  { unfold quoted. cbn [contains startswith]. rewrite Ascii.eqb_refl. reflexivity. }
  assert (I : py_int (quoted inner) = None).
  { destruct (py_int (quoted inner)) as [n | ] eqn:I; [ | reflexivity ].
    rewrite (int_no_quote _ n I) in Q. discriminate. }
  assert (F : py_float (quoted inner) = None).
  { destruct (py_float (quoted inner)) as [f | ] eqn:F; [ | reflexivity ].
    rewrite (float_no_quote _ f F) in Q. discriminate. }
  rewrite I, F, (strip_quoted inner S E). reflexivity.
Qed.
End QuotedOverride.

Lemma quoted_override_is_string_witness :
  coerce_override (quoted "8080") = Ok (VString "8080").
Proof.
  apply (@quoted_override_is_string sample_runtime sample_laws "8080"); reflexivity.
Defined.

(** ** What the substitution pass keeps *)

Lemma dict_get_none_keys (k : string) (d : dict) :
  ~ In k (map fst d) -> dict_get k d = None.
Proof.
  induction d as [ | [k' v] rest IH ]; [ reflexivity | ].
  cbn [map fst In dict_get]. intro N.
  destruct (String.eqb k k') eqn:E.
  - apply String.eqb_eq in E. subst k'. exfalso. apply N. left. reflexivity.
  - apply IH. intro Hin. apply N. right. exact Hin.
Qed.

Lemma dict_has_keys (k : string) (d : dict) :
  dict_has k d = false -> ~ In k (map fst d).
Proof.
  unfold dict_has. induction d as [ | [k' v] rest IH ]; [ intros _ [] | ].
  cbn [map fst In dict_get].
  destruct (String.eqb k k') eqn:E; [ discriminate | ].
  intros G [Hk | Hin]; [ subst k'; rewrite String.eqb_refl in E; discriminate | ].
  exact (IH G Hin).
Qed.

Lemma dict_pop_removes (k : string) (d : dict) :
  unique_keys d = true -> ~ In k (map fst (dict_pop k d)).
Proof.
  induction d as [ | [k' v] rest IH ]; [ intros _ [] | ].
  cbn [unique_keys dict_pop]. intro U. apply andb_true_iff in U as [F U].
  destruct (String.eqb k k') eqn:E.
  - apply String.eqb_eq in E. subst k'.
    apply dict_has_keys. apply negb_true_iff. exact F.
  - cbn [map fst In]. intros [Hk | Hin].
    + subst k'. rewrite String.eqb_refl in E. discriminate.
    + exact (IH U Hin).
Qed.

Section Shape.
Context `{PyRuntime}.

Lemma replace_members_keys overrides members members' :
  replace_members overrides members = Ok members' ->
  map fst members' = map fst members.
Proof.
  revert members'. induction members as [ | [key value] rest IH ]; intros members' E.
  - injection E as <-. reflexivity.
  - cbn [replace_members] in E. fold (replace_members overrides) in E.
    destruct (replace_member overrides value) as [value' | e]; [ | discriminate ].
    destruct (replace_members overrides rest) as [rest' | e]; [ | discriminate ].
    cbn [bind] in E. injection E as <-. cbn [map fst]. rewrite (IH rest' eq_refl).
    reflexivity.
Qed.

(** X10.  When the substitution returns a document, it is an object with
    the keys of the input in their order, less the [defaults] key when
    the defaults were truthy; no key is added, dropped or moved by the
    substitution pass, and with unique keys in the input no [defaults]
    member is left. *)
Theorem substitution_keeps_the_keys
    (members : dict) (runtime_overrides : string) (out : Value) :
  apply_runtime_overrides (VObject members) runtime_overrides = Ok out ->
  exists members',
    out = VObject members'
    /\ map fst members' =
       map fst (if truthy (defaults_of members)
                then dict_pop "defaults" members else members)
    /\ (unique_keys members = true -> truthy (defaults_of members) = true ->
        dict_get "defaults" members' = None).
Proof.
  unfold apply_runtime_overrides. cbv zeta. intro E.
  destruct (negb (truthy (defaults_of members))
            && negb (truthy (VString runtime_overrides))) eqn:G.
  - injection E as <-. exists members.
    apply andb_true_iff in G as [G _]. apply negb_true_iff in G. rewrite G.
    split; [ reflexivity | split; [ reflexivity | discriminate ] ].
  - destruct (resolve_overrides (defaults_of members) runtime_overrides)
      as [table | e]; [ | discriminate ].
    cbn [bind] in E. rewrite replace_variables_object in E.
    destruct (replace_members table _) as [members' | e] eqn:R; [ | discriminate ].
    cbn [bind] in E. injection E as <-. exists members'.
    pose proof (replace_members_keys _ _ _ R) as K.
    split; [ reflexivity | split; [ exact K | ] ].
    intros U T. rewrite T in K. apply dict_get_none_keys. rewrite K.
    apply dict_pop_removes. exact U.
Qed.

Lemma replace_variables_path_any overrides (p : list step) :
  forall doc doc' x,
    p <> [] ->
    replace_variables overrides doc = Ok doc' ->
    get_path p doc = Some x ->
    exists x', replace_member overrides x = Ok x' /\ get_path p doc' = Some x'.
Proof.
  induction p as [ | st rest IH ]; intros doc doc' x Hne E G; [ contradiction | ].
  assert (Step : exists y y',
             replace_member overrides y = Ok y'
             /\ get_path rest y = Some x
             /\ forall q, get_path (st :: q) doc' = get_path q y').
  { destruct st as [k | i].
    - destruct doc as [ | | | | | members | ]; try discriminate.
      rewrite replace_variables_object in E.
      destruct (replace_members overrides members) as [members' | e] eqn:Em;
        [ | discriminate ].
      cbn [bind] in E. injection E as <-.
      cbn [get_path] in G. destruct (dict_get k members) as [y | ] eqn:Gk;
        [ | discriminate ].
      destruct (replace_members_get _ _ _ _ _ Em Gk) as [y' [Ey Gy]].
      exists y, y'. split; [ exact Ey | split; [ exact G | ] ].
      intro q. cbn [get_path]. rewrite Gy. reflexivity.
    - destruct doc as [ | | | | | | items ]; try discriminate.
      rewrite replace_variables_array in E.
      destruct (replace_items overrides items) as [items' | e] eqn:Em;
        [ | discriminate ].
      cbn [bind] in E. injection E as <-.
      cbn [get_path] in G. destruct (nth_error items i) as [y | ] eqn:Gk;
        [ | discriminate ].
      destruct (replace_items_nth _ _ _ _ _ Em Gk) as [y' [Ey Gy]].
      exists y, y'. split; [ exact Ey | split; [ exact G | ] ].
      intro q. cbn [get_path]. rewrite Gy. reflexivity. }
  destruct Step as [y [y' [Ey [Gy Q]]]]. rewrite Q.
  destruct rest as [ | st' rest' ].
  - cbn [get_path] in *. injection Gy as ->. exists y'. split; [ exact Ey | reflexivity ].
  - assert (Ey' : replace_variables overrides y = Ok y').
    { destruct y; try exact Ey. destruct st'; discriminate Gy. }
    apply (IH y y' x); [ discriminate | exact Ey' | exact Gy ].
Qed.

(** X11.  The substitution pass changes strings only: a null, a boolean
    or a number at any path of the document is at the same path, as it
    was, in the document returned. *)
Theorem substitution_keeps_other_scalars
    (overrides : dict) (p : list step) (doc doc' x : Value) :
  replace_variables overrides doc = Ok doc' ->
  get_path p doc = Some x ->
  p <> [] ->
  is_container x = false ->
  (forall s, x <> VString s) ->
  get_path p doc' = Some x.
Proof.
  intros E G Hne C S.
  destruct (replace_variables_path_any overrides p doc doc' x Hne E G)
    as [x' [Ex Gx]].
  rewrite Gx. f_equal.
  destruct x; try (injection Ex as <-; reflexivity); try discriminate.
  exfalso. exact (S s eq_refl).
Qed.
End Shape.

Lemma substitution_keeps_the_keys_witness :
  exists members',
    VObject [("b", VString "x"); ("a", VInt 1)] = VObject members'
    /\ map fst members' =
       map fst (if truthy (defaults_of [("b", VString "${v}");
                                        ("defaults", VArray [VObject [("v", VString "x")]]);
                                        ("a", VInt 1)])
                then dict_pop "defaults"
                       [("b", VString "${v}");
                        ("defaults", VArray [VObject [("v", VString "x")]]);
                        ("a", VInt 1)]
                else [("b", VString "${v}");
                      ("defaults", VArray [VObject [("v", VString "x")]]);
                      ("a", VInt 1)])
    /\ (unique_keys [("b", VString "${v}");
                     ("defaults", VArray [VObject [("v", VString "x")]]);
                     ("a", VInt 1)] = true ->
        truthy (defaults_of [("b", VString "${v}");
                             ("defaults", VArray [VObject [("v", VString "x")]]);
                             ("a", VInt 1)]) = true ->
        dict_get "defaults" members' = None).
Proof.
  apply (@substitution_keeps_the_keys sample_runtime
           [("b", VString "${v}");
            ("defaults", VArray [VObject [("v", VString "x")]]);
            ("a", VInt 1)] EmptyString).
  vm_compute. reflexivity.
Defined.

Lemma substitution_keeps_other_scalars_witness :
  get_path [Key "list"; Index 1]
    (VObject [("list", VArray [VInt 12; VNull])]) = Some VNull.
Proof.
  apply (@substitution_keeps_other_scalars sample_runtime [("v", VInt 12)]
           [Key "list"; Index 1]
           (VObject [("list", VArray [VString "${v}"; VNull])])
           (VObject [("list", VArray [VInt 12; VNull])]) VNull).
  - vm_compute. reflexivity.
  - reflexivity.
  - discriminate.
  - reflexivity.
  - intros s. discriminate.
Defined.

(** ** The scan and the text it was made from *)

Lemma until_close_inv (s body : string) :
  until_close s = Some body ->
  exists rest, s = body ++ String "}"%char rest /\ contains "}" body = false.
Proof.
  revert body. induction s as [ | a t IH ]; intros body E; [ discriminate | ].
  cbn [until_close] in E.
  destruct (Ascii.eqb a "}"%char) eqn:Ea.
  - injection E as <-. apply Ascii.eqb_eq in Ea. subst a.
    exists t. split; reflexivity.
  - destruct (until_close t) as [b | ]; [ | discriminate ].
    injection E as <-. destruct (IH b eq_refl) as [rest [-> Hb]].
    exists rest. split; [ reflexivity | ].
    rewrite contains_char_cons, Ascii.eqb_sym, Ea, Hb. reflexivity.
Qed.

Lemma placeholder_at_inv (s body : string) :
  placeholder_at s = Some body ->
  exists rest,
    s = group0 body ++ rest /\ body <> EmptyString /\ contains "}" body = false.
Proof.
  unfold placeholder_at. intro E.
  destruct s as [ | a [ | b t ] ]; try discriminate.
  destruct (Ascii.eqb a "$"%char) eqn:Ea; [ | discriminate ].
  destruct (Ascii.eqb b "{"%char) eqn:Eb; [ | discriminate ].
  cbn [andb] in E. apply Ascii.eqb_eq in Ea. apply Ascii.eqb_eq in Eb. subst a b.
  destruct (until_close t) as [[ | c r ] | ] eqn:U; try discriminate.
  injection E as <-.
  destruct (until_close_inv t _ U) as [rest [-> Hb]].
  exists rest. split; [ | split; [ discriminate | exact Hb ] ].
  unfold group0. cbn [append]. rewrite append_assoc. reflexivity.
Qed.

Lemma unparse_scan_bounded (n : nat) :
  forall s, (String.length s <= n)%nat -> unparse (scan s) = s.
Proof.
  induction n as [ | n IH ]; intros s L.
  - destruct s; [ reflexivity | cbn [String.length] in L; lia ].
  - destruct s as [ | a t ]; [ reflexivity | ].
    destruct (placeholder_at (String a t)) as [body | ] eqn:P.
    + destruct (placeholder_at_inv _ _ P) as [rest [E [Hne Hb]]].
      rewrite E, (scan_group0 body rest Hne Hb). cbn [unparse]. f_equal.
      apply IH.
      assert (Len : String.length (String a t)
                    = (String.length (group0 body) + String.length rest)%nat)
        by (rewrite E; apply length_append).
      unfold group0 in Len. rewrite !length_append in Len.
      cbn [String.length] in Len, L. lia.
    + unfold scan. cbn [scan_from]. rewrite P. cbn [unparse]. f_equal.
      apply IH. cbn [String.length] in L. lia.
Qed.

(** X12.  The scan of line 274 loses nothing of the string: the
    characters it leaves and the matches it finds, each written back as
    its whole text, are the string again in the same order. *)
Theorem unparse_scan (s : string) : unparse (scan s) = s.
Proof. apply (unparse_scan_bounded (String.length s)). lia. Qed.

Section Unbound.
Context `{PyRuntime}.

Lemma render_unparse overrides (segments : list segment) :
  (forall e, In (Placeholder e) segments -> replace overrides e = Ok (group0 e)) ->
  render overrides segments = Ok (unparse segments).
Proof.
  induction segments as [ | g rest IH ]; intro A; [ reflexivity | ].
  assert (R : render overrides rest = Ok (unparse rest))
    by (apply IH; intros e Hin; apply A; right; exact Hin).
  destruct g as [c | e]; cbn [render unparse]; rewrite R.
  - reflexivity.
  - rewrite (A e (or_introl eq_refl)). reflexivity.
Qed.

(** X13.  A string whose placeholders are all plain names that are
    unbound, or bound to None, comes out of [re.sub] as it went in: an
    unresolved placeholder is left in the text and is no error. *)
Theorem unbound_placeholders_stay (overrides : dict) (value : string) :
  (forall e, In (Placeholder e) (scan value) ->
             contains "if" e && contains "else" e = false
             /\ (dict_get e overrides = None \/ dict_get e overrides = Some VNull)) ->
  re_sub overrides value = Ok value.
Proof.
  intro A. unfold re_sub. rewrite render_unparse, unparse_scan; [ reflexivity | ].
  intros e Hin. destruct (A e Hin) as [C [G | G]];
    unfold replace; rewrite C, G; reflexivity.
Qed.

(** X14.  A string that is exactly one placeholder with a plain name
    bound to a boolean becomes that boolean, and bound to a string it
    becomes that very string, also when the string reads as a number or
    as a keyword: the quotes put around it at line 273 are the ones line
    280 removes.  (A bound string that starts with the marker is taken
    for a deferred substitution instead.) *)
Theorem whole_placeholder_keeps_bool_and_string (overrides : dict) (v : string) :
  v <> EmptyString ->
  contains "}" v = false ->
  contains "if" v && contains "else" v = false ->
  (forall b, dict_get v overrides = Some (VBool b) ->
             replace_string overrides (group0 v) = Ok (VBool b))
  /\ (forall s, dict_get v overrides = Some (VString s) ->
                startswith marker s = false ->
                replace_string overrides (group0 v) = Ok (VString s)).
Proof.
  intros Hne Hclose Hcond. split.
  - intros b G.
    rewrite (replace_string_text overrides (group0 v)
               (if b then "true" else "false") eq_refl).
    + destruct b; reflexivity.
    + apply re_sub_group0; try assumption.
      unfold replace. rewrite Hcond, G. reflexivity.
  - intros s G M.
    rewrite (replace_string_text overrides (group0 v) (quoted s) eq_refl).
    + rewrite coerce_result_quoted, M. reflexivity.
    + apply re_sub_group0; try assumption.
      apply replace_string_value; assumption.
Qed.

Lemma render_raises overrides (segments : list segment) (x : string) (e : exn) :
  In (Placeholder x) segments -> replace overrides x = Raise e ->
  exists e', render overrides segments = Raise e'.
Proof.
  intros Hin R. induction segments as [ | g rest IH ]; [ contradiction | ].
  destruct g as [c | y]; cbn [render].
  - destruct Hin as [Hin | Hin]; [ discriminate | ].
    destruct (IH Hin) as [e' E]. rewrite E. exists e'. reflexivity.
  - destruct (replace overrides y) as [t | e0] eqn:Ry; [ | exists e0; reflexivity ].
    destruct Hin as [Hin | Hin]; [ injection Hin as ->; congruence | ].
    destruct (IH Hin) as [e' E]. rewrite E. exists e'. reflexivity.
Qed.

(** X15.  An error of a conditional placeholder that is not a
    ValueError is not caught: when a string anywhere in the document
    holds such a placeholder, the substitution of the whole document
    raises and returns no document. *)
Theorem conditional_error_fails_document
    (overrides : dict) (doc : Value) (p : list step) (s x : string) (e : exn) :
  get_path p doc = Some (VString s) ->
  p <> [] ->
  startswith marker s = false ->
  In (Placeholder x) (scan s) ->
  contains "if" x && contains "else" x = true ->
  evaluate_conditional overrides x = Raise e ->
  is_ValueError e = false ->
  replace overrides x = Raise e
  /\ exists e', replace_variables overrides doc = Raise e'.
Proof.
  intros G Hne M Hin C Ev NV.
  assert (R : replace overrides x = Raise e).
  { unfold replace. rewrite C, Ev, NV. reflexivity. }
  split; [ exact R | ].
  destruct (render_raises overrides (scan s) x e Hin R) as [e1 E1].
  assert (RS : replace_string overrides s = Raise e1).
  { unfold replace_string. rewrite M. cbn [replace_variable].
    unfold re_sub. rewrite E1. reflexivity. }
  destruct (replace_variables overrides doc) as [doc' | e'] eqn:D;
    [ | exists e'; reflexivity ].
  destruct (replace_variables_path overrides p doc doc' s Hne D G) as [val [V _]].
  rewrite RS in V. discriminate.
Qed.

Lemma find_all_false {A : Type} (f : A -> bool) (l : list A) :
  (forall x, In x l -> f x = false) -> find f l = None.
Proof.
  induction l as [ | a rest IH ]; intro N; [ reflexivity | ].
  cbn [find]. rewrite (N a (or_introl eq_refl)).
  apply IH. intros x Hin. apply N. right. exact Hin.
Qed.

(** X16.  A conditional whose nodes are all allowed and whose evaluation
    fails with the TypeError of an unbound name (the text line 138 looks
    for) ends the run: the exit of line 141, with the expression in its
    message, passes every handler of the substitution. *)
Theorem unbound_name_exits
    (overrides : dict) (expression : string) (tree : ast) (msg : string) :
  contains "if" expression && contains "else" expression = true ->
  ast_parse expression = Ok tree ->
  forallb allowed (nodes tree) = true ->
  py_eval tree (filter (fun kv => negb (is_container (snd kv))) overrides)
  = Raise (TypeError msg) ->
  contains "'NoneType' object is not subscriptable" msg = true ->
  replace overrides expression
  = Raise (SystemExit ("RVS conditional error" ++ newline ++ "Error: " ++ expression)).
Proof.
  intros C P A Ev Msg.
  assert (F : find (fun node => negb (allowed node)) (ast_walk tree) = None).
  { apply find_all_false. intros node Hin. apply ast_walk_nodes in Hin.
    rewrite forallb_forall in A. rewrite (A node Hin). reflexivity. }
  unfold replace. rewrite C.
  unfold evaluate_conditional, safe_evaluate_condition.
  rewrite P. cbn [bind]. rewrite F, Ev, Msg. reflexivity.
Qed.

Lemma validate_all_first_failure
    (pre post : list (Value -> result unit)) (v : Value -> result unit)
    (instance : Value) (e : exn) :
  validate_all pre instance = Ok tt ->
  v instance = Raise e ->
  validate_all (pre ++ v :: post) instance = Raise e.
Proof.
  intros P V. induction pre as [ | w rest IH ]; cbn [app validate_all].
  - rewrite V. reflexivity.
  - cbn [validate_all] in P. destruct (w instance) as [u | e0]; [ | discriminate ].
    cbn [bind] in *. exact (IH P).
Qed.

(** X17.  The schemas are checked in their order against the document
    as the substitution returned it, before anything is pruned; the first
    schema it violates ends the run with the exit of line 58, and the
    schemas after it are not consulted. *)
Theorem schema_violation_exits
    (file_path : string) (data cleaned : Value) (runtime_overrides : string)
    (pre post : list (Value -> result unit)) (v : Value -> result unit)
    (m : string) :
  apply_runtime_overrides data runtime_overrides = Ok cleaned ->
  validate_all pre cleaned = Ok tt ->
  v cleaned = Raise (ValidationError m) ->
  validate_and_output_json file_path data runtime_overrides (pre ++ v :: post)
  = Raise (SystemExit ("JSON validation error" ++ newline ++ "Error: " ++ m)).
Proof.
  intros A P V. unfold validate_and_output_json. rewrite A. cbn [bind].
  rewrite (validate_all_first_failure pre post v cleaned _ P V). reflexivity.
Qed.

(** X18.  An override value in braces that is not JSON ends the run with
    the message of line 55, which names the document file and not the
    override: the handler written for the document catches the error of
    [json.loads] at line 88 too. *)
Theorem bad_json_override_blames_document
    (file_path : string) (members : dict) (runtime_overrides : string)
    (schemas : list (Value -> result unit)) (m : string) :
  parse_overrides runtime_overrides = Raise (JSONDecodeError m) ->
  validate_and_output_json file_path (VObject members) runtime_overrides schemas
  = Raise (SystemExit ("Invalid JSON content in " ++ file_path ++ newline
                       ++ "Error: " ++ m)).
Proof.
  intro P.
  assert (T : truthy (VString runtime_overrides) = true).
  { unfold parse_overrides in P.
    destruct (truthy (VString runtime_overrides)); [ reflexivity | discriminate ]. }
  unfold validate_and_output_json, apply_runtime_overrides. cbv zeta.
  rewrite T. cbn [negb]. rewrite andb_false_r.
  unfold resolve_overrides. rewrite P. reflexivity.
Qed.
End Unbound.

Section IntPlaceholder.
Context `{PyRuntime}.
Context {laws : PyNumberLaws}.

(** X19.  A string that is exactly one placeholder with a plain name
    bound to an integer becomes that integer, on a runtime whose [int]
    reads back what [str] writes. *)
Theorem whole_placeholder_keeps_int (overrides : dict) (v : string) (n : Z) :
  v <> EmptyString ->
  contains "}" v = false ->
  contains "if" v && contains "else" v = false ->
  dict_get v overrides = Some (VInt n) ->
  py_int (str_int n) = Some n ->
  replace_string overrides (group0 v) = Ok (VInt n).
Proof.
  intros Hne Hclose Hcond G RT.
  rewrite (replace_string_text overrides (group0 v) (str_int n) eq_refl).
  - rewrite (coerce_result_int _ n RT). reflexivity.
  - apply re_sub_group0; try assumption.
    unfold replace. rewrite Hcond, G. reflexivity.
Qed.
End IntPlaceholder.

Lemma unbound_placeholders_stay_witness :
  re_sub [("b", VNull)] "a ${x} and ${b}" = Ok "a ${x} and ${b}".
Proof.
  apply (@unbound_placeholders_stay sample_runtime [("b", VNull)] "a ${x} and ${b}").
  intros e Hin. vm_compute in Hin.
  repeat (destruct Hin as [Hin | Hin];
          [ first [ discriminate Hin
                  | injection Hin as <-; split;
                    [ reflexivity | first [ left; reflexivity | right; reflexivity ] ] ]
          | ]).
  contradiction.
Defined.

Lemma whole_placeholder_keeps_bool_and_string_witness :
  (forall b, dict_get "port" [("port", VString "8080")] = Some (VBool b) ->
             replace_string [("port", VString "8080")] (group0 "port") = Ok (VBool b))
  /\ (forall s, dict_get "port" [("port", VString "8080")] = Some (VString s) ->
                startswith marker s = false ->
                replace_string [("port", VString "8080")] (group0 "port")
                = Ok (VString s)).
Proof.
  apply (@whole_placeholder_keeps_bool_and_string sample_runtime
           [("port", VString "8080")] "port"); try reflexivity.
  discriminate.
Defined.

Lemma conditional_error_fails_document_witness :
  replace [("other", VInt 1)] "1 if level == 2 else 3"
  = Raise (SystemExit ("RVS conditional error" ++ newline
                       ++ "Error: 1 if level == 2 else 3"))
  /\ exists e',
       replace_variables [("other", VInt 1)]
         (VObject [("a", VArray [VString "x ${1 if level == 2 else 3}"])])
       = Raise e'.
Proof.
  apply (@conditional_error_fails_document sample_runtime [("other", VInt 1)]
           (VObject [("a", VArray [VString "x ${1 if level == 2 else 3}"])])
           [Key "a"; Index 0] "x ${1 if level == 2 else 3}"
           "1 if level == 2 else 3").
  - reflexivity.
  - discriminate.
  - reflexivity.
  - vm_compute. tauto.
  - reflexivity.
  - reflexivity.
  - reflexivity.
Defined.

Lemma unbound_name_exits_witness :
  replace [("other", VInt 1)] "1 if level == 2 else 3"
  = Raise (SystemExit ("RVS conditional error" ++ newline
                       ++ "Error: 1 if level == 2 else 3")).
Proof.
  apply (@unbound_name_exits sample_runtime [("other", VInt 1)]
           "1 if level == 2 else 3" compare_tree
           "'NoneType' object is not subscriptable"); reflexivity.
Defined.

Lemma schema_violation_exits_witness :
  validate_and_output_json "config.json"
    (VObject [("a", VObject [("disabled", VBool true)])]) EmptyString
    ([fun _ => Ok tt] ++ (fun _ => Raise (ValidationError "a is not allowed")) :: [])
  = Raise (SystemExit ("JSON validation error" ++ newline
                       ++ "Error: " ++ "a is not allowed")).
Proof.
  apply (@schema_violation_exits sample_runtime "config.json"
           (VObject [("a", VObject [("disabled", VBool true)])])
           (VObject [("a", VObject [("disabled", VBool true)])]) EmptyString
           [fun _ => Ok tt] [] (fun _ => Raise (ValidationError "a is not allowed"))
           "a is not allowed"); reflexivity.
Defined.

Lemma bad_json_override_blames_document_witness :
  validate_and_output_json "config.json" (VObject [("a", VInt 1)]) "o={bad}" []
  = Raise (SystemExit ("Invalid JSON content in " ++ "config.json" ++ newline
                       ++ "Error: " ++ "Expecting value")).
Proof.
  apply (@bad_json_override_blames_document sample_runtime "config.json"
           [("a", VInt 1)] "o={bad}" [] "Expecting value").
  reflexivity.
Defined.

Lemma whole_placeholder_keeps_int_witness :
  replace_string [("n", VInt (-12))] (group0 "n") = Ok (VInt (-12)).
Proof.
  apply (@whole_placeholder_keeps_int sample_runtime sample_laws
           [("n", VInt (-12))] "n" (-12)%Z); try reflexivity.
  discriminate.
Defined.
